(** * Comment reconciliation and positioning of the pull-request review bot

    A shallow embedding of [src/main.ts]: [createComment] (line mapping of an
    AI finding onto the lines of a diff hunk), [compareWithPreviousReviews]
    (identifier, match against the historical reviews, tracking marker,
    resolved issues), and the part of [main] that filters the comments by
    [comment_mode] and decides whether the action fails.

    JavaScript strings are sequences of UTF-16 code units, modelled as
    [list Z]; JavaScript objects that the code updates in place live in a
    store indexed by object identity. *)

From Stdlib Require Import ZArith List Bool Lia String Ascii.
From Stdlib Require Import Numbers.DecimalString.
From Stdlib Require Import Sorting.Sorted.
Import ListNotations.

Local Open Scope Z_scope.
Local Open Scope list_scope.

(** ** The JavaScript built-ins the code calls *)

Module JS.

(** A string value: its UTF-16 code units. *)
Definition jsstring := list Z.

(** An ASCII literal of the source, as code units. *)
Definition lit (s : string) : jsstring :=
  map (fun a => Z.of_N (N_of_ascii a)) (list_ascii_of_string s).

(** [a === b] on strings. *)
Fixpoint str_eqb (a b : jsstring) : bool :=
  match a, b with
  | [], [] => true
  | x :: a', y :: b' => (x =? y) && str_eqb a' b'
  | _, _ => false
  end.

(** The numbers the modelled code works with: an integer (line numbers,
    counts and thresholds stay far below 2^53, where doubles are exact) or
    NaN, the result of converting text that is not a number. *)
Inductive number :=
| Int (z : Z)
| NaN.

(** [String(n)], as a template literal [${n}] computes it. *)
Definition Z_toString (z : Z) : jsstring :=
  lit (NilZero.string_of_int (Z.to_int z)).

Definition Number_toString (n : number) : jsstring :=
  match n with
  | Int z => Z_toString z
  | NaN => lit "NaN"
  end.

(** [a === b] on numbers: NaN is equal to nothing, itself included. *)
Definition num_eqb (a b : number) : bool :=
  match a, b with
  | Int x, Int y => x =? y
  | _, _ => false
  end.

(** [Math.abs(a - b)]. *)
Definition abs_diff (a b : number) : number :=
  match a, b with
  | Int x, Int y => Int (Z.abs (x - y))
  | _, _ => NaN
  end.

(** [a < b], [a <= b], [a > b], [a >= b]: false as soon as one side is
    NaN. *)
Definition num_ltb (a b : number) : bool :=
  match a, b with
  | Int x, Int y => x <? y
  | _, _ => false
  end.

Definition num_leb (a b : number) : bool :=
  match a, b with
  | Int x, Int y => x <=? y
  | _, _ => false
  end.

Definition num_gtb (a b : number) : bool := num_ltb b a.

Definition num_geb (a b : number) : bool :=
  match a, b with
  | Int x, Int y => y <=? x
  | _, _ => false
  end.

(** *** [Buffer.from(s).toString("base64")] *)

Definition isHighSurrogate (c : Z) : bool := (0xD800 <=? c) && (c <=? 0xDBFF).
Definition isLowSurrogate (c : Z) : bool := (0xDC00 <=? c) && (c <=? 0xDFFF).

(** UTF-8 bytes of one code point. *)
Definition utf8_of_codepoint (cp : Z) : list Z :=
  if cp <? 0x80 then [cp]
  else if cp <? 0x800 then
    [Z.lor 0xC0 (Z.shiftr cp 6); Z.lor 0x80 (Z.land cp 0x3F)]
  else if cp <? 0x10000 then
    [Z.lor 0xE0 (Z.shiftr cp 12);
     Z.lor 0x80 (Z.land (Z.shiftr cp 6) 0x3F);
     Z.lor 0x80 (Z.land cp 0x3F)]
  else
    [Z.lor 0xF0 (Z.shiftr cp 18);
     Z.lor 0x80 (Z.land (Z.shiftr cp 12) 0x3F);
     Z.lor 0x80 (Z.land (Z.shiftr cp 6) 0x3F);
     Z.lor 0x80 (Z.land cp 0x3F)].

(** [Buffer.from(s)]: the UTF-8 encoding of the string; a surrogate pair is
    one code point, a lone surrogate becomes U+FFFD. *)
Fixpoint utf8 (s : jsstring) : list Z :=
  match s with
  | [] => []
  | c :: rest =>
      if isHighSurrogate c then
        match rest with
        | d :: rest' =>
            if isLowSurrogate d then
              utf8_of_codepoint
                (0x10000 + Z.shiftl (c - 0xD800) 10 + (d - 0xDC00))
              ++ utf8 rest'
            else utf8_of_codepoint 0xFFFD ++ utf8 rest
        | [] => utf8_of_codepoint 0xFFFD
        end
      else if isLowSurrogate c then utf8_of_codepoint 0xFFFD ++ utf8 rest
      else utf8_of_codepoint c ++ utf8 rest
  end.

Definition base64_alphabet : jsstring :=
  lit "ABCDEFGHIJKLMNOPQRSTUVWXYZabcdefghijklmnopqrstuvwxyz0123456789+/".

Definition base64_digit (i : Z) : Z := nth (Z.to_nat i) base64_alphabet 0.

Definition pad : Z := 61.

(** [buf.toString("base64")]: three bytes give four digits, with [=]
    padding at the end. *)
Fixpoint toBase64 (bs : list Z) : jsstring :=
  match bs with
  | [] => []
  | [a] =>
      [base64_digit (Z.shiftr a 2);
       base64_digit (Z.shiftl (Z.land a 3) 4); pad; pad]
  | [a; b] =>
      [base64_digit (Z.shiftr a 2);
       base64_digit (Z.lor (Z.shiftl (Z.land a 3) 4) (Z.shiftr b 4));
       base64_digit (Z.shiftl (Z.land b 15) 2); pad]
  | a :: b :: c :: rest =>
      [base64_digit (Z.shiftr a 2);
       base64_digit (Z.lor (Z.shiftl (Z.land a 3) 4) (Z.shiftr b 4));
       base64_digit (Z.lor (Z.shiftl (Z.land b 15) 2) (Z.shiftr c 6));
       base64_digit (Z.land c 63)]
      ++ toBase64 rest
  end.

(** *** [s.trim()] *)

(** LineTerminator code units: LF, CR, LS, PS. *)
Definition isLineTerminator (c : Z) : bool :=
  (c =? 0x0A) || (c =? 0x0D) || (c =? 0x2028) || (c =? 0x2029).

(** WhiteSpace code units: TAB, VT, FF, SP, NBSP, ZWNBSP and the space
    separators. *)
Definition isWhiteSpace (c : Z) : bool :=
  (c =? 0x09) || (c =? 0x0B) || (c =? 0x0C) || (c =? 0x20) || (c =? 0xA0)
  || (c =? 0xFEFF) || (c =? 0x1680) || ((0x2000 <=? c) && (c <=? 0x200A))
  || (c =? 0x202F) || (c =? 0x205F) || (c =? 0x3000).

Definition isTrimmed (c : Z) : bool := isWhiteSpace c || isLineTerminator c.

Fixpoint trimStart (s : jsstring) : jsstring :=
  match s with
  | [] => []
  | c :: rest => if isTrimmed c then trimStart rest else s
  end.

Definition trimEnd (s : jsstring) : jsstring := rev (trimStart (rev s)).

Definition trim (s : jsstring) : jsstring := trimEnd (trimStart s).

(** *** [s.replace(/\[.*?\]/g, "")] *)

Definition lbracket : Z := 91.
Definition rbracket : Z := 93.

(** Does a closing bracket come before the end of the line?  The lazy
    [.*?] matches no line terminator, so an opening bracket starts a match
    exactly when this holds for the text after it. *)
Fixpoint closes (s : jsstring) : bool :=
  match s with
  | [] => false
  | c :: rest =>
      if c =? rbracket then true
      else if isLineTerminator c then false
      else closes rest
  end.

(** One left-to-right pass.  [inside] says that a match is open: its text is
    dropped up to and including the first closing bracket, which is the
    shortest match; the search resumes right after it. *)
Fixpoint removeBracketed_from (inside : bool) (s : jsstring) : jsstring :=
  match s with
  | [] => []
  | c :: rest =>
      if inside then
        if c =? rbracket then removeBracketed_from false rest
        else removeBracketed_from true rest
      else if (c =? lbracket) && closes rest then
        removeBracketed_from true rest
      else c :: removeBracketed_from false rest
  end.

Definition removeBracketed (s : jsstring) : jsstring :=
  removeBracketed_from false s.

(** [s.includes(t)], used to read the failure message. *)
Fixpoint startsWith (s t : jsstring) : bool :=
  match t, s with
  | [], _ => true
  | y :: t', x :: s' => (x =? y) && startsWith s' t'
  | _ :: _, [] => false
  end.

Fixpoint includes (s t : jsstring) : bool :=
  startsWith s t ||
  match s with
  | [] => false
  | _ :: s' => includes s' t
  end.

End JS.

Import JS.

(** ** Data model *)

Inductive Severity := critical | warning | suggestion.

Inductive Status := active | resolved | outdated.

Inductive Source := ai | quality_tool.

(** [interface ReviewComment]; an optional field that is absent is [None].
    [HistoricalReviewComment] extends it and makes [id] and [status]
    required. *)
Record ReviewComment := mkReviewComment {
  body : jsstring;
  path : jsstring;
  line : number;
  severity : Severity;
  id : option jsstring;
  status : option Status;
  source : option Source
}.

(** [interface HistoricalReview]. *)
Record HistoricalReview := mkHistoricalReview {
  hr_id : jsstring;
  comment : ReviewComment;
  commitSha : jsstring;
  timestamp : jsstring
}.

(** The three kinds of change of the diff parser, with the line numbers
    each carries. *)
Inductive Change :=
| AddChange (ln : Z) (content : jsstring)
| DeleteChange (ln : Z) (content : jsstring)
| NormalChange (ln1 ln2 : Z) (content : jsstring).

Record Chunk := mkChunk { changes : list Change }.

Record File := mkFile { to : option jsstring; chunks : list Chunk }.

Record AIResponse := mkAIResponse {
  lineNumber : jsstring;
  reviewComment : jsstring;
  ai_severity : option Severity
}.

Definition Severity_eqb (a b : Severity) : bool :=
  match a, b with
  | critical, critical | warning, warning | suggestion, suggestion => true
  | _, _ => false
  end.

(** [c.status === "resolved"]. *)
Definition isResolved (c : ReviewComment) : bool :=
  match status c with
  | Some resolved => true
  | _ => false
  end.

(** [a === b] on two optional strings ([undefined === undefined] holds). *)
Definition optstr_eqb (a b : option jsstring) : bool :=
  match a, b with
  | Some x, Some y => str_eqb x y
  | None, None => true
  | _, _ => false
  end.

(** ** [createComment]: mapping a finding onto the lines of the hunk *)

(** [changes.sort((a, b) => a - b)]: ascending numeric order. *)
Fixpoint insert_sorted (x : Z) (l : list Z) : list Z :=
  match l with
  | [] => [x]
  | y :: l' => if x - y <=? 0 then x :: l else y :: insert_sorted x l'
  end.

Fixpoint sort_numeric (l : list Z) : list Z :=
  match l with
  | [] => []
  | x :: l' => insert_sorted x (sort_numeric l')
  end.

(** [arr.reduce(f)] without an initial value; it throws on an empty array,
    which [createComment] excludes before the call. *)
Definition reduce {A : Type} (f : A -> A -> A) (l : list A) : option A :=
  match l with
  | [] => None
  | x :: rest => Some (fold_left f rest x)
  end.

Definition isAddOrNormal (change : Change) : bool :=
  match change with
  | AddChange _ _ | NormalChange _ _ _ => true
  | DeleteChange _ _ => false
  end.

Definition changeLine (change : Change) : option Z :=
  match change with
  | AddChange ln _ => Some ln
  | NormalChange _ ln2 _ => Some ln2
  | DeleteChange _ _ => None
  end.

Definition defined (l : list (option Z)) : list Z :=
  flat_map (fun o => match o with Some ln => [ln] | None => [] end) l.

(** The added and context lines of the hunk, in hunk order. *)
Definition diffLines (chunk : Chunk) : list Z :=
  defined (map changeLine (filter isAddOrNormal (changes chunk))).

Definition changedLines (chunk : Chunk) : list Z :=
  sort_numeric (diffLines chunk).

Definition isLineInDiff (chunk : Chunk) (lineNum : number) : bool :=
  existsb
    (fun change =>
       match change with
       | AddChange ln _ => num_eqb (Int ln) lineNum
       | NormalChange _ ln2 _ => num_eqb (Int ln2) lineNum
       | DeleteChange _ _ => false
       end)
    (changes chunk).

(** The callback of the reduction: keep [prev] unless [curr] is strictly
    closer to the reported line. *)
Definition closer (lineNum : number) (prev curr : Z) : Z :=
  if num_ltb (abs_diff (Int curr) lineNum) (abs_diff (Int prev) lineNum)
  then curr else prev.

Definition closestLine (chunk : Chunk) (lineNum : number) : option Z :=
  reduce (closer lineNum) (changedLines chunk).

Definition originalLineNote (lineNum : number) : jsstring :=
  lit "[Original comment was for line " ++ Number_toString lineNum
  ++ lit "]" ++ [10].

Definition severityOrWarning (s : option Severity) : Severity :=
  match s with
  | Some sev => sev
  | None => warning
  end.

(** [!file.to]: the target path is absent or the empty string. *)
Definition truthyPath (p : option jsstring) : option jsstring :=
  match p with
  | Some (c :: s) => Some (c :: s)
  | _ => None
  end.

Section CreateComment.

(** [Number(text)], the conversion of the reported line. *)
Variable Number : jsstring -> number.

(** The callback of [aiResponses.flatMap]: the comments made for one
    finding, none or one. *)
Definition commentFor (file : File) (chunk : Chunk) (aiResponse : AIResponse)
  : list ReviewComment :=
  match truthyPath (to file) with
  | None => []
  | Some fileTo =>
      let lineNum := Number (lineNumber aiResponse) in
      if negb (isLineInDiff chunk lineNum) then
        match closestLine chunk lineNum with
        | None => []
        | Some closest =>
            [ {| body := originalLineNote lineNum ++ reviewComment aiResponse;
                 path := fileTo;
                 line := Int closest;
                 severity := severityOrWarning (ai_severity aiResponse);
                 id := None; status := None; source := None |} ]
        end
      else
        [ {| body := reviewComment aiResponse;
             path := fileTo;
             line := lineNum;
             severity := severityOrWarning (ai_severity aiResponse);
             id := None; status := None; source := None |} ]
  end.

Definition createComment (file : File) (chunk : Chunk)
  (aiResponses : list AIResponse) : list ReviewComment :=
  flat_map (commentFor file chunk) aiResponses.

End CreateComment.

(** ** [compareWithPreviousReviews] *)

(** The comment objects of the current run are updated in place, so they are
    kept in a store and the list of new comments holds their identities.  The
    historical reviews are only read; [getPreviousReviews] builds them from
    the published comments, as objects of their own. *)
Definition loc := nat.

Definition store := loc -> ReviewComment.

Definition update (h : store) (l : loc) (c : ReviewComment) : store :=
  fun l' => if Nat.eqb l' l then c else h l'.

Definition set_id (c : ReviewComment) (i : jsstring) : ReviewComment :=
  {| body := body c; path := path c; line := line c; severity := severity c;
     id := Some i; status := status c; source := source c |}.

Definition set_body (c : ReviewComment) (b : jsstring) : ReviewComment :=
  {| body := b; path := path c; line := line c; severity := severity c;
     id := id c; status := status c; source := source c |}.

(** The string that is encoded: path, line and body joined by colons. *)
Definition idText (c : ReviewComment) : jsstring :=
  path c ++ lit ":" ++ Number_toString (line c) ++ lit ":" ++ body c.

Definition commentIdOf (c : ReviewComment) : jsstring :=
  toBase64 (utf8 (idText c)).

(** [body.replace(/\[.*?\]/g, "").trim()]. *)
Definition stripped (b : jsstring) : jsstring := trim (removeBracketed b).

(** The predicate given to [historicalReviews.find]. *)
Definition reportedBy (newComment : ReviewComment) (hr : HistoricalReview)
  : bool :=
  str_eqb (path (comment hr)) (path newComment)
  && num_leb (abs_diff (line (comment hr)) (line newComment)) (Int 3)
  && str_eqb (stripped (body (comment hr))) (stripped (body newComment)).

(** The sentence appended to a comment that was reported before; the
    characters before the first space are those of the source text. *)
Definition stillOpenNotice : jsstring :=
  [10; 10] ++ [0x201A; 0xF6; 0x2020; 0xD4; 0x220F; 0xE8]
  ++ lit " This issue was previously reported and still needs to be addressed.".

Definition trackingMarker (commentId currentCommitSha : jsstring) : jsstring :=
  lit "<!--review-id:" ++ commentId ++ lit ",commit:" ++ currentCommitSha
  ++ lit "-->" ++ [10].

(** The prefix of a resolved issue, with the characters of the source
    text. *)
Definition resolvedPrefix : jsstring :=
  [0x201A; 0xFA; 0xD6] ++ lit " RESOLVED: ".

(** One iteration of the loop, on the value of the object it visits. *)
Definition annotate (historicalReviews : list HistoricalReview)
  (currentCommitSha : jsstring) (newComment : ReviewComment)
  : ReviewComment :=
  let commentId := commentIdOf newComment in
  let c1 := set_id newComment commentId in
  let previousReview := find (reportedBy c1) historicalReviews in
  let c2 :=
    match previousReview with
    | Some _ => set_body c1 (body c1 ++ stillOpenNotice)
    | None => c1
    end in
  set_body c2 (trackingMarker commentId currentCommitSha ++ body c2).

(** The loop over [newComments]: each object is rewritten in the store. *)
Fixpoint processComments (historicalReviews : list HistoricalReview)
  (currentCommitSha : jsstring) (newComments : list loc) (h : store)
  : store :=
  match newComments with
  | [] => h
  | l :: rest =>
      processComments historicalReviews currentCommitSha rest
        (update h l (annotate historicalReviews currentCommitSha (h l)))
  end.

(** [{ ...hr.comment, body: ..., status: "resolved" }]. *)
Definition resolvedComment (hr : HistoricalReview) : ReviewComment :=
  {| body := resolvedPrefix ++ body (comment hr);
     path := path (comment hr);
     line := line (comment hr);
     severity := severity (comment hr);
     id := id (comment hr);
     status := Some resolved;
     source := source (comment hr) |}.

(** [!processedComments.some((pc) => pc.id === hr.comment.id)]. *)
Definition notReported (h : store) (processedComments : list loc)
  (hr : HistoricalReview) : bool :=
  negb (existsb (fun pc => optstr_eqb (id (h pc)) (id (comment hr)))
          processedComments).

(** What the call leaves behind: the store, the processed objects (the
    objects it was given) and the resolved comments, which are new
    objects. *)
Record Reconciled := mkReconciled {
  store_after : store;
  processedComments : list loc;
  resolvedComments : list ReviewComment
}.

Definition compareWithPreviousReviews (newComments : list loc)
  (historicalReviews : list HistoricalReview) (currentCommitSha : jsstring)
  (h : store) : Reconciled :=
  let h' := processComments historicalReviews currentCommitSha newComments h in
  {| store_after := h';
     processedComments := newComments;
     resolvedComments :=
       map resolvedComment
         (filter (notReported h' newComments) historicalReviews) |}.

(** The array that is returned, read in the store the call leaves behind. *)
Definition returned (r : Reconciled) : list ReviewComment :=
  map (store_after r) (processedComments r) ++ resolvedComments r.

(** ** [main]: comment mode and failure thresholds *)

(** [comments.filter(...)] for the given [comment_mode]; any other mode
    keeps everything, like [all]. *)
Definition filterComments (commentMode : jsstring)
  (historicalReviews : list HistoricalReview) (comments : list ReviewComment)
  : list ReviewComment :=
  if str_eqb commentMode (lit "new") then
    filter
      (fun c =>
         negb (existsb (fun hr => optstr_eqb (id (comment hr)) (id c))
                 historicalReviews))
      comments
  else if str_eqb commentMode (lit "unresolved") then
    filter (fun c => negb (isResolved c)) comments
  else comments.

(** The number of comments of a severity that are not resolved. *)
Definition countOpen (sev : Severity) (comments : list ReviewComment) : Z :=
  Z.of_nat
    (List.length
       (filter (fun c => Severity_eqb (severity c) sev && negb (isResolved c))
          comments)).

Definition plural (n : Z) : jsstring := if 1 <? n then lit "s" else [].

(** The three messages; their first characters are those of the source
    text. *)
Definition criticalMessage (n : Z) (threshold : number) : jsstring :=
  [0x201A; 0xF9; 0xE5] ++ lit " Found " ++ Z_toString n
  ++ lit " critical issue" ++ plural n ++ lit " (threshold: "
  ++ Number_toString threshold ++ lit ").".

Definition warningMessage (n : Z) (threshold : number) : jsstring :=
  [0x201A; 0xF6; 0x2020; 0xD4; 0x220F; 0xE8] ++ lit " Found " ++ Z_toString n
  ++ lit " warning" ++ plural n ++ lit " (threshold: "
  ++ Number_toString threshold ++ lit ").".

Definition suggestionMessage (n : Z) (threshold : number) : jsstring :=
  [0xF8FF; 0xFC; 0xED; 0xB0] ++ lit " Found " ++ Z_toString n
  ++ lit " suggestion" ++ plural n ++ lit " (threshold: "
  ++ Number_toString threshold ++ lit ").".

Definition qualityMessage (n : Z) : jsstring :=
  [0x201A; 0xF6; 0x2020; 0xD4; 0x220F; 0xE8] ++ lit " Found " ++ Z_toString n
  ++ lit " quality issue" ++ plural n ++ lit " that should be addressed.".

Record Verdict := mkVerdict {
  shouldFail : bool;
  failureMessage : jsstring
}.

(** [max >= 0 && count > max]. *)
Definition exceeds (count : Z) (max : number) : bool :=
  num_geb max (Int 0) && num_gtb (Int count) max.

(** The chain of tests at the end of [main], on the counts. *)
Definition failureDecision (criticalIssues warnings suggestions : Z)
  (maxCriticalIssues maxWarningIssues maxSuggestionIssues : number)
  (failOnQualityIssues : bool) (qualityIssuesCount : Z) : Verdict :=
  if exceeds criticalIssues maxCriticalIssues then
    mkVerdict true (criticalMessage criticalIssues maxCriticalIssues)
  else if exceeds warnings maxWarningIssues then
    mkVerdict true (warningMessage warnings maxWarningIssues)
  else if exceeds suggestions maxSuggestionIssues then
    mkVerdict true (suggestionMessage suggestions maxSuggestionIssues)
  else if failOnQualityIssues && (0 <? qualityIssuesCount) then
    mkVerdict true (qualityMessage qualityIssuesCount)
  else mkVerdict false [].

Definition verdict (comments : list ReviewComment)
  (maxCriticalIssues maxWarningIssues maxSuggestionIssues : number)
  (failOnQualityIssues : bool) (qualityIssuesCount : Z) : Verdict :=
  failureDecision (countOpen critical comments) (countOpen warning comments)
    (countOpen suggestion comments)
    maxCriticalIssues maxWarningIssues maxSuggestionIssues
    failOnQualityIssues qualityIssuesCount.

(** ** Notions of the specification *)

(** Two line numbers at most [d] apart. *)
Definition linesWithin (d : Z) (a b : number) : Prop :=
  exists x y, a = Int x /\ b = Int y /\ Z.abs (x - y) <= d.

(** The match the specification describes for a previously reported issue:
    same path, line within three lines, same stripped body. *)
Definition matchesHistory (c : ReviewComment) (hr : HistoricalReview) : Prop :=
  path (comment hr) = path c
  /\ linesWithin 3 (line (comment hr)) (line c)
  /\ stripped (body (comment hr)) = stripped (body c).


(** The output of a run taken as the history of the next one, as the
    idempotence property of the specification has it: one record per returned
    comment, holding a copy of the comment under the identifier it
    carries. *)
Definition asHistory (sha stamp : jsstring) (c : ReviewComment)
  : HistoricalReview :=
  {| hr_id := match id c with Some i => i | None => [] end;
     comment := c;
     commitSha := sha;
     timestamp := stamp |}.




(** Whether some historical review reports the comment, that is whether
    [historicalReviews.find] returns a review. *)
Definition reportedBefore (hist : list HistoricalReview) (c : ReviewComment)
  : bool :=
  existsb (reportedBy c) hist.


(** ** Sample inputs *)

(** A conversion for the examples.  It agrees with [Number] on the texts
    they use: a run of decimal digits has its value, and a text with a
    letter in it is not a number. *)
Fixpoint digitsValue (acc : Z) (s : jsstring) : number :=
  match s with
  | [] => Int acc
  | c :: rest =>
      if (48 <=? c) && (c <=? 57) then digitsValue (10 * acc + (c - 48)) rest
      else NaN
  end.

Definition decimalNumber (s : jsstring) : number := digitsValue 0 s.

(** A hunk with the lines 2, 5 and 9 of the new file (and one deleted
    line), out of order on purpose. *)
Definition sampleChunk : Chunk :=
  mkChunk [AddChange 9 (lit "c"); DeleteChange 7 (lit "old");
           NormalChange 4 2 (lit "a"); AddChange 5 (lit "b")].

Definition sampleFile : File := mkFile (Some (lit "a.py")) [sampleChunk].

Definition finding (ln : string) : AIResponse :=
  mkAIResponse (lit ln) (lit "unused import") None.

(** The issue of the scenario in the specification and a store that holds it
    at every identity. *)
Definition unusedImport : ReviewComment :=
  mkReviewComment (lit "unused import") (lit "a.py") (Int 10) warning
    None None None.

Definition sampleStore : store := fun _ => unusedImport.

Definition sampleSha : jsstring := lit "c0ffee".

(** One critical issue, twenty warnings, and a resolved critical issue that
    the counts leave out. *)
Definition issueOf (sev : Severity) (st : option Status) : ReviewComment :=
  mkReviewComment (lit "finding") (lit "a.py") (Int 1) sev None st None.

Definition sampleComments : list ReviewComment :=
  issueOf critical (Some resolved) :: issueOf critical None
  :: repeat (issueOf warning None) 20.


(** A run with two findings, [typo] on line 1 and the unused import, now on
    line 11, and a history with the unused import as published for line 10
    under the identifier of that line. *)
Definition typo : ReviewComment :=
  mkReviewComment (lit "typo in comment") (lit "a.py") (Int 1) suggestion
    None None None.

Definition movedImport : ReviewComment :=
  mkReviewComment (lit "unused import") (lit "a.py") (Int 11) warning
    None None None.

Definition movedStore : store :=
  fun l => match l with O => typo | _ => movedImport end.

Definition importHistory : list HistoricalReview :=
  [ {| hr_id := commentIdOf unusedImport;
       comment :=
         mkReviewComment (lit "unused import") (lit "a.py") (Int 10) warning
           (Some (commentIdOf unusedImport)) (Some active) None;
       commitSha := lit "badc0de";
       timestamp := lit "2024-01-01T00:00:00Z" |} ].

(** Two findings with the same text, reported for the lines 6 and 7, which
    are not in the hunk: [createComment] puts both on line 5, each with the
    note of its reported line.  The store holds them at 0 and 1, and the
    unused import of line 10 elsewhere. *)
Definition remapped : list ReviewComment :=
  createComment decimalNumber sampleFile sampleChunk [finding "6"; finding "7"].


(** ** [getPreviousReviews]: reading the published comments back *)

(** [s.toUpperCase()] and [s.toLowerCase()] on the texts the code applies
    them to, severity names and severity tags, which are ASCII. *)
Definition asciiUpper (c : Z) : Z :=
  if (97 <=? c) && (c <=? 122) then c - 32 else c.

Definition asciiLower (c : Z) : Z :=
  if (65 <=? c) && (c <=? 90) then c + 32 else c.

Definition toUpperCase (s : jsstring) : jsstring := map asciiUpper s.

Definition toLowerCase (s : jsstring) : jsstring := map asciiLower s.

(** A literal of a pattern at the head of the text: what follows it. *)
Definition literal (t s : jsstring) : option jsstring :=
  if startsWith s t then Some (skipn (List.length t) s) else None.

(** The lazy [(.*?)] followed by the rest [k] of a pattern: the shortest
    run of characters, none a line terminator, after which [k] matches. *)
Fixpoint lazyThen {R : Type} (k : jsstring -> option R) (s : jsstring)
  : option (jsstring * R) :=
  match k s with
  | Some r => Some ([], r)
  | None =>
      match s with
      | [] => None
      | c :: rest =>
          if isLineTerminator c then None
          else match lazyThen k rest with
               | Some (g, r) => Some (c :: g, r)
               | None => None
               end
      end
  end.

(** [/<!--review-id:(.*?),commit:(.*?)-->/] at the head of the text: the
    two groups. *)
Definition markerAt (s : jsstring) : option (jsstring * jsstring) :=
  match literal (lit "<!--review-id:") s with
  | None => None
  | Some s1 =>
      match lazyThen
              (fun s2 =>
                 match literal (lit ",commit:") s2 with
                 | None => None
                 | Some s3 => lazyThen (literal (lit "-->")) s3
                 end)
              s1 with
      | Some (reviewId, (sha, _)) => Some (reviewId, sha)
      | None => None
      end
  end.

(** [body.match(...)]: the leftmost position where the pattern matches. *)
Fixpoint matchMarker (s : jsstring) : option (jsstring * jsstring) :=
  match markerAt s with
  | Some groups => Some groups
  | None =>
      match s with
      | [] => None
      | _ :: rest => matchMarker rest
      end
  end.

(** Comparison of [/i]: letters of either case are equal; a character
    outside ASCII is equal to no ASCII character. *)
Fixpoint startsWithIgnoreCase (s t : jsstring) : bool :=
  match t, s with
  | [], _ => true
  | y :: t', x :: s' =>
      (asciiUpper x =? asciiUpper y) && startsWithIgnoreCase s' t'
  | _ :: _, [] => false
  end.

Definition severityWords : list jsstring :=
  [lit "CRITICAL"; lit "WARNING"; lit "SUGGESTION"].

(** [/\[(CRITICAL|WARNING|SUGGESTION)\]/i] at the head of the text: the
    group, in the case the text has it. *)
Definition tagAt (s : jsstring) : option jsstring :=
  match s with
  | c :: rest =>
      if c =? lbracket then
        match find (fun word => startsWithIgnoreCase rest (word ++ [rbracket]))
                severityWords with
        | Some word => Some (firstn (List.length word) rest)
        | None => None
        end
      else None
  | [] => None
  end.

Fixpoint matchTag (s : jsstring) : option jsstring :=
  match tagAt s with
  | Some g => Some g
  | None =>
      match s with
      | [] => None
      | _ :: rest => matchTag rest
      end
  end.

Definition severityOfName (name : jsstring) : option Severity :=
  if str_eqb name (lit "critical") then Some critical
  else if str_eqb name (lit "warning") then Some warning
  else if str_eqb name (lit "suggestion") then Some suggestion
  else None.

(** [/<!--.*?-->/] at the head of the text: the length of the match. *)
Definition htmlCommentAt (s : jsstring) : option nat :=
  match literal (lit "<!--") s with
  | None => None
  | Some s1 =>
      match lazyThen (literal (lit "-->")) s1 with
      | Some (g, _) => Some (4 + List.length g + 3)%nat
      | None => None
      end
  end.

(** [body.replace(/<!--.*?-->/g, "")]: [skip] counts the characters of the
    current match that are still to be dropped; the search resumes behind
    the match. *)
Fixpoint removeHtmlComments_from (skip : nat) (s : jsstring) : jsstring :=
  match s with
  | [] => []
  | c :: rest =>
      match skip with
      | S k => removeHtmlComments_from k rest
      | O =>
          match htmlCommentAt s with
          | Some (S k) => removeHtmlComments_from k rest
          | _ => c :: removeHtmlComments_from O rest
          end
      end
  end.

Definition removeHtmlComments (s : jsstring) : jsstring :=
  removeHtmlComments_from O s.

(** A review comment as the hosting platform lists it; the line may be
    missing. *)
Record ListedComment := mkListedComment {
  listed_body : jsstring;
  listed_path : jsstring;
  listed_line : option Z;
  created_at : jsstring
}.

(** [comment.line || 1]. *)
Definition lineOrOne (l : option Z) : Z :=
  match l with
  | Some z => if z =? 0 then 1 else z
  | None => 1
  end.

(** The callback of [comments.map]: [None] stands for [null]. *)
Definition previousReview (listed : ListedComment) : option HistoricalReview :=
  match matchMarker (listed_body listed) with
  | None => None
  | Some (reviewId, sha) =>
      let tagged :=
        match matchTag (listed_body listed) with
        | Some g => severityOfName (toLowerCase g)
        | None => None
        end in
      Some {| hr_id := reviewId;
              commitSha := sha;
              timestamp := created_at listed;
              comment :=
                {| body := trim (removeHtmlComments (listed_body listed));
                   path := listed_path listed;
                   line := Int (lineOrOne (listed_line listed));
                   severity := severityOrWarning tagged;
                   id := Some reviewId;
                   status := Some active;
                   source := None |} |}
  end.

(** [response] is the list the platform returns, or [None] when the request
    fails, which the function catches. *)
Definition getPreviousReviews (response : option (list ListedComment))
  : list HistoricalReview :=
  match response with
  | None => []
  | Some comments =>
      flat_map
        (fun listed =>
           match previousReview listed with
           | Some review => [review]
           | None => []
           end)
        comments
  end.

(** ** [createReviewComment]: what is published *)

(** The characters are those of the source text. *)
Definition getSeverityEmoji (s : Severity) : jsstring :=
  match s with
  | critical => [0x201A; 0xF9; 0xE5]
  | warning => [0x201A; 0xF6; 0x2020; 0xD4; 0x220F; 0xE8]
  | suggestion => [0xF8FF; 0xFC; 0xED; 0xB0]
  end.

(** The string a severity is in JavaScript. *)
Definition severityName (s : Severity) : jsstring :=
  match s with
  | critical => lit "critical"
  | warning => lit "warning"
  | suggestion => lit "suggestion"
  end.

(** The body of the comment that is sent for a review comment. *)
Definition publishedBody (c : ReviewComment) : jsstring :=
  getSeverityEmoji (severity c) ++ lit " ["
  ++ toUpperCase (severityName (severity c)) ++ lit "] " ++ body c.

Record GitHubComment := mkGitHubComment {
  gh_body : jsstring;
  gh_path : jsstring;
  gh_line : number
}.

Definition reviewComments (comments : list ReviewComment)
  : list GitHubComment :=
  map (fun c =>
         {| gh_body := publishedBody c; gh_path := path c; gh_line := line c |})
    comments.

Inductive ReviewEvent := REQUEST_CHANGES | COMMENT.

(** [comments.filter((c) => c.severity === sev).length]. *)
Definition countSeverity (sev : Severity) (comments : list ReviewComment) : Z :=
  Z.of_nat
    (List.length (filter (fun c => Severity_eqb (severity c) sev) comments)).

Definition reviewEvent (comments : list ReviewComment) : ReviewEvent :=
  if (0 <? countSeverity critical comments)
     || (0 <? countSeverity warning comments)
  then REQUEST_CHANGES else COMMENT.

(** The inner map of [commentsByFile]: it is only read through
    [get(severity)], so it is a list per severity. *)
Definition FileComments := Severity -> list ReviewComment.

Definition noComments : FileComments := fun _ => [].

Definition pushComment (c : ReviewComment) (fc : FileComments) : FileComments :=
  fun sev => if Severity_eqb sev (severity c) then fc sev ++ [c] else fc sev.

(** One step of [comments.forEach]: the entry of the path is created at the
    end of the map when it is missing, and the comment is pushed. *)
Fixpoint addComment (c : ReviewComment) (m : list (jsstring * FileComments))
  : list (jsstring * FileComments) :=
  match m with
  | [] => [(path c, pushComment c noComments)]
  | (p, fc) :: m' =>
      if str_eqb p (path c) then (p, pushComment c fc) :: m'
      else (p, fc) :: addComment c m'
  end.

Definition commentsByFile (comments : list ReviewComment)
  : list (jsstring * FileComments) :=
  fold_left (fun m c => addComment c m) comments [].

(** ** The older [main]: the status without thresholds *)

(** [comments] have no status in that version; the messages start with a
    cross mark and a warning sign. *)
Definition olderStatus (comments : list ReviewComment) : Verdict :=
  let criticalIssues := countSeverity critical comments in
  let warnings := countSeverity warning comments in
  if 0 <? criticalIssues then
    mkVerdict true
      ([0x274C] ++ lit " Found " ++ Z_toString criticalIssues
       ++ lit " critical issue" ++ plural criticalIssues
       ++ lit " that must be fixed.")
  else if 0 <? warnings then
    mkVerdict true
      ([0x26A0; 0xFE0F] ++ lit " Found "
       ++ Z_toString warnings ++ lit " warning" ++ plural warnings
       ++ lit " that should be addressed.")
  else mkVerdict false [].

(** ** Quality metrics: the issues of a tool and their counts *)

Record QualityIssue := mkQualityIssue {
  q_path : jsstring;
  q_line : number;
  q_message : jsstring;
  q_rule : jsstring;
  q_severity : Severity
}.

(** The four counts every tool runner computes. *)
Record Metrics := mkMetrics {
  totalIssues : nat;
  criticalIssues : nat;
  warningIssues : nat;
  filesWithIssues : nat
}.

Record ToolResult := mkToolResult {
  issues : list QualityIssue;
  metrics : option Metrics
}.

(** [new Set(paths)]: a path is added when the set does not have it. *)
Fixpoint setOf (seen paths : list jsstring) : list jsstring :=
  match paths with
  | [] => seen
  | p :: rest =>
      if existsb (str_eqb p) seen then setOf seen rest
      else setOf (seen ++ [p]) rest
  end.

Definition computeMetrics (found : list QualityIssue) : Metrics :=
  {| totalIssues := List.length found;
     criticalIssues :=
       List.length
         (filter (fun i => Severity_eqb (q_severity i) critical) found);
     warningIssues :=
       List.length
         (filter (fun i => Severity_eqb (q_severity i) warning) found);
     filesWithIssues := List.length (setOf [] (map q_path found)) |}.

(** The result a runner returns when it ran: its issues and their counts. *)
Definition ranWith (found : list QualityIssue) : ToolResult :=
  {| issues := found; metrics := Some (computeMetrics found) |}.

(** The step of [runQualityMetrics] that drops the issues of ignored rules
    and refreshes the counts. *)
Definition withoutIgnoredRules (rulesToIgnore : list jsstring)
  (result : ToolResult) : ToolResult :=
  match rulesToIgnore with
  | [] => result
  | _ :: _ =>
      let kept :=
        filter (fun i => negb (existsb (str_eqb (q_rule i)) rulesToIgnore))
          (issues result) in
      {| issues := kept;
         metrics :=
           match metrics result with
           | Some _ => Some (computeMetrics kept)
           | None => None
           end |}
  end.

(** ** Auxiliary predicates on characters *)

(** Characters that end neither a bracketed group nor a line. *)
Definition inGroup (c : Z) : bool :=
  negb (c =? rbracket) && negb (isLineTerminator c).

(** Characters a review identifier can have in a marker: no comma and no
    line terminator; characters of a commit reference: no hyphen and no
    line terminator. *)
Definition idChar (c : Z) : bool :=
  negb (c =? 44) && negb (isLineTerminator c).

Definition shaChar (c : Z) : bool :=
  negb (c =? 45) && negb (isLineTerminator c).

Definition notTerminator (c : Z) : bool := negb (isLineTerminator c).

(** The marker of a published comment, as the pattern reads it. *)
Definition markerText (reviewId sha : jsstring) : jsstring :=
  lit "<!--review-id:" ++ reviewId ++ lit ",commit:" ++ sha ++ lit "-->".

(** ** Sample inputs for the published comments *)

(** The unused import as a run leaves it, the comment the platform lists
    for it, and a finding whose text is the warning emoji, two spaces, a
    line feed and the text of the issue. *)
Definition publishedImport : ReviewComment :=
  mkReviewComment
    (trackingMarker (commentIdOf unusedImport) sampleSha
     ++ lit "unused import")
    (lit "a.py") (Int 10) warning (Some (commentIdOf unusedImport))
    None None.

Definition listedImport : ListedComment :=
  mkListedComment (publishedBody publishedImport) (lit "a.py") (Some 10)
    (lit "2024-01-02T00:00:00Z").

Definition emojiImport : ReviewComment :=
  mkReviewComment
    (getSeverityEmoji warning ++ lit "  " ++ [10] ++ lit "unused import")
    (lit "a.py") (Int 10) warning None None None.

(** The comments of a path and a severity, in the order they were given. *)
Definition commentsOf (p : jsstring) (sev : Severity)
  (comments : list ReviewComment) : list ReviewComment :=
  filter (fun c => str_eqb (path c) p && Severity_eqb (severity c) sev)
    comments.

(** * Properties *)

(** A list of distinct literal identities has no duplicate. *)
Ltac distinct :=
  repeat (constructor; [simpl; intuition discriminate|]); constructor.

(** ** Strings *)

Lemma str_eqb_refl (a : jsstring) : str_eqb a a = true.
Proof.
  induction a as [|x a IH]; simpl; [reflexivity|].
  now rewrite Z.eqb_refl, IH.
Qed.

Lemma str_eqb_eq (a b : jsstring) : str_eqb a b = true <-> a = b.
Proof.
  split.
  - revert b; induction a as [|x a IH]; intros [|y b]; simpl; try easy.
    intros H; apply andb_true_iff in H as [Hx Hab].
    apply Z.eqb_eq in Hx; subst y. now rewrite (IH b Hab).
  - intros ->. apply str_eqb_refl.
Qed.

Lemma optstr_eqb_eq (a b : option jsstring) : optstr_eqb a b = true <-> a = b.
Proof.
  destruct a as [x|], b as [y|]; simpl; try easy.
  rewrite str_eqb_eq. split; congruence.
Qed.

(** ** Sorting and the reduction of [createComment] *)

Lemma insert_sorted_In (x y : Z) (l : list Z) :
  In y (insert_sorted x l) <-> y = x \/ In y l.
Proof.
  induction l as [|z l IH]; simpl.
  - intuition.
  - destruct (x - z <=? 0); simpl; rewrite ?IH; intuition.
Qed.

Lemma sort_numeric_In (y : Z) (l : list Z) :
  In y (sort_numeric l) <-> In y l.
Proof.
  induction l as [|x l IH]; simpl; [tauto|].
  rewrite insert_sorted_In, IH. intuition.
Qed.

Lemma insert_sorted_sorted (x : Z) (l : list Z) :
  StronglySorted Z.le l -> StronglySorted Z.le (insert_sorted x l).
Proof.
  induction 1 as [|z l Hs IH Hz]; simpl.
  - constructor; constructor.
  - destruct (x - z <=? 0) eqn:E.
    + apply Z.leb_le in E. constructor.
      * now constructor.
      * constructor; [lia|].
        eapply Forall_impl; [|exact Hz]. simpl; intros; lia.
    + apply Z.leb_gt in E. constructor; [exact IH|].
      apply Forall_forall. intros k Hk.
      apply insert_sorted_In in Hk as [->|Hk]; [lia|].
      rewrite Forall_forall in Hz. now apply Hz.
Qed.

Lemma sort_numeric_sorted (l : list Z) : StronglySorted Z.le (sort_numeric l).
Proof.
  induction l as [|x l IH]; simpl.
  - constructor.
  - now apply insert_sorted_sorted.
Qed.

Lemma sort_numeric_nil (l : list Z) : sort_numeric l = [] <-> l = [].
Proof.
  split; [|now intros ->].
  destruct l as [|x l]; [reflexivity|]. intros H.
  assert (Hx : In x (sort_numeric (x :: l))) by (apply sort_numeric_In; now left).
  rewrite H in Hx. destruct Hx.
Qed.

(** The reduction over an ascending list, started at an element that is no
    larger than the rest: the result is a closest element, and the smallest
    among the closest. *)
Lemma fold_closer_int (n : Z) (rest : list Z) :
  forall a, Forall (Z.le a) rest -> StronglySorted Z.le rest ->
    let m := fold_left (closer (Int n)) rest a in
    (m = a \/ In m rest)
    /\ Z.abs (m - n) <= Z.abs (a - n)
    /\ (Z.abs (a - n) = Z.abs (m - n) -> m <= a)
    /\ forall k, In k rest ->
         Z.abs (m - n) <= Z.abs (k - n)
         /\ (Z.abs (k - n) = Z.abs (m - n) -> m <= k).
Proof.
  induction rest as [|y ys IH]; intros a Ha Hs; simpl.
  - split; [now left|]. split; [lia|]. split; [lia|]. intros k [].
  - inversion Ha as [|? ? Hay Hays]; subst.
    inversion Hs as [|? ? Hys Hy]; subst.
    assert (Ha' : Forall (Z.le (closer (Int n) a y)) ys).
    { unfold closer; simpl.
      destruct (Z.abs (y - n) <? Z.abs (a - n)); assumption. }
    destruct (IH _ Ha' Hys) as (Hin & Hle & Htie & Hall).
    set (m := fold_left (closer (Int n)) ys (closer (Int n) a y)) in *.
    unfold closer in Hin, Hle, Htie; simpl in Hin, Hle, Htie.
    destruct (Z.abs (y - n) <? Z.abs (a - n)) eqn:E;
      [apply Z.ltb_lt in E | apply Z.ltb_ge in E].
    + split; [destruct Hin as [->|Hin]; right; [now left|now right]|].
      split; [lia|]. split; [lia|].
      intros k [<-|Hk]; [split; [lia|exact Htie]|now apply Hall].
    + split; [destruct Hin as [->|Hin]; [now left|right; now right]|].
      split; [lia|]. split; [exact Htie|].
      intros k [<-|Hk]; [split; lia|now apply Hall].
Qed.

(** With NaN as the reported line no comparison succeeds and the reduction
    keeps its first element. *)
Lemma fold_closer_NaN (rest : list Z) (a : Z) :
  fold_left (closer NaN) rest a = a.
Proof.
  revert a; induction rest as [|y ys IH]; intros a; simpl; [reflexivity|].
  unfold closer at 2; simpl. apply IH.
Qed.

Lemma isLineInDiff_In (chunk : Chunk) (n : Z) :
  isLineInDiff chunk (Int n) = true <-> In n (diffLines chunk).
Proof.
  unfold isLineInDiff, diffLines. destruct chunk as [cs]; simpl.
  induction cs as [|c cs IH]; simpl; [easy|].
  destruct c as [ln ?|ln ?|ln1 ln2 ?]; simpl.
  - rewrite orb_true_iff, IH, Z.eqb_eq. intuition.
  - exact IH.
  - rewrite orb_true_iff, IH, Z.eqb_eq. intuition.
Qed.

Lemma isLineInDiff_NaN (chunk : Chunk) : isLineInDiff chunk NaN = false.
Proof.
  unfold isLineInDiff. destruct chunk as [cs]; simpl.
  induction cs as [|c cs IH]; simpl; [reflexivity|].
  destruct c; simpl; exact IH.
Qed.

Lemma changedLines_In (chunk : Chunk) (k : Z) :
  In k (changedLines chunk) <-> In k (diffLines chunk).
Proof. apply sort_numeric_In. Qed.

Lemma closestLine_None (chunk : Chunk) (lineNum : number) :
  closestLine chunk lineNum = None <-> diffLines chunk = [].
Proof.
  unfold closestLine, changedLines, reduce.
  destruct (sort_numeric (diffLines chunk)) eqn:E.
  - apply (proj1 (sort_numeric_nil _)) in E. now rewrite E.
  - split; [discriminate|]. intros H. rewrite H in E. discriminate.
Qed.

(** The closest line for an integer reported line. *)
Lemma closestLine_int (chunk : Chunk) (n : Z) :
  diffLines chunk <> [] ->
  exists m, closestLine chunk (Int n) = Some m
    /\ In m (diffLines chunk)
    /\ (forall k, In k (diffLines chunk) -> Z.abs (m - n) <= Z.abs (k - n))
    /\ (forall k, In k (diffLines chunk) ->
          Z.abs (k - n) = Z.abs (m - n) -> m <= k).
Proof.
  intros Hne. unfold closestLine, reduce.
  pose proof (sort_numeric_sorted (diffLines chunk)) as Hs.
  pose proof (changedLines_In chunk) as Hin. unfold changedLines in *.
  destruct (sort_numeric (diffLines chunk)) as [|a rest] eqn:E.
  - apply (proj1 (sort_numeric_nil _)) in E. contradiction.
  - inversion Hs as [|? ? Hrest Ha]; subst.
    destruct (fold_closer_int n rest a Ha Hrest) as (Hm & Hle & Htie & Hall).
    eexists; split; [reflexivity|].
    set (m := fold_left (closer (Int n)) rest a) in *.
    repeat split.
    + apply Hin. destruct Hm as [->|Hm]; [now left|now right].
    + intros k Hk. apply Hin in Hk as [<-|Hk]; [exact Hle|now apply Hall].
    + intros k Hk. apply Hin in Hk as [<-|Hk]; [exact Htie|now apply Hall].
Qed.

(** The closest line when the reported line is NaN: the smallest line. *)
Lemma closestLine_NaN (chunk : Chunk) :
  diffLines chunk <> [] ->
  exists m, closestLine chunk NaN = Some m
    /\ In m (diffLines chunk)
    /\ forall k, In k (diffLines chunk) -> m <= k.
Proof.
  intros Hne. unfold closestLine, reduce.
  pose proof (sort_numeric_sorted (diffLines chunk)) as Hs.
  pose proof (changedLines_In chunk) as Hin. unfold changedLines in *.
  destruct (sort_numeric (diffLines chunk)) as [|a rest] eqn:E.
  - apply (proj1 (sort_numeric_nil _)) in E. contradiction.
  - inversion Hs as [|? ? Hrest Ha]; subst.
    exists a. rewrite fold_closer_NaN. repeat split.
    + apply Hin; now left.
    + intros k Hk. apply Hin in Hk as [<-|Hk]; [lia|].
      rewrite Forall_forall in Ha. now apply Ha.
Qed.

(** ** The loop of [compareWithPreviousReviews] *)

Lemma find_existsb {A : Type} (p : A -> bool) (l : list A) :
  (exists x, find p l = Some x) <-> existsb p l = true.
Proof.
  induction l as [|a l IH]; simpl.
  - split; [intros [x H]; discriminate|discriminate].
  - destruct (p a); simpl; [|exact IH].
    split; [reflexivity|intros _; now exists a].
Qed.

Lemma find_none_existsb {A : Type} (p : A -> bool) (l : list A) :
  find p l = None <-> existsb p l = false.
Proof.
  induction l as [|a l IH]; simpl; [easy|].
  destruct (p a); simpl; [easy|exact IH].
Qed.

Lemma num_leb_within (a b : number) (d : Z) :
  num_leb (abs_diff a b) (Int d) = true <-> linesWithin d a b.
Proof.
  unfold linesWithin. destruct a as [x|], b as [y|]; simpl.
  - rewrite Z.leb_le. split.
    + intros H. now exists x, y.
    + intros (x' & y' & Hx & Hy & H). now inversion Hx; inversion Hy; subst.
  - split; [discriminate|]. intros (x' & y' & _ & Hy & _). discriminate.
  - split; [discriminate|]. intros (x' & y' & Hx & _). discriminate.
  - split; [discriminate|]. intros (x' & y' & Hx & _). discriminate.
Qed.

Lemma reportedBy_spec (c : ReviewComment) (hr : HistoricalReview) :
  reportedBy c hr = true <-> matchesHistory c hr.
Proof.
  unfold reportedBy, matchesHistory.
  rewrite !andb_true_iff, !str_eqb_eq, num_leb_within. tauto.
Qed.

Lemma reportedBefore_spec (hist : list HistoricalReview) (c : ReviewComment) :
  reportedBefore hist c = true <->
  exists hr, In hr hist /\ matchesHistory c hr.
Proof.
  unfold reportedBefore. rewrite existsb_exists.
  split; intros (hr & Hin & H); exists hr; split; trivial;
    now apply reportedBy_spec.
Qed.

(** What one iteration writes. *)
Lemma annotate_id hist sha c : id (annotate hist sha c) = Some (commentIdOf c).
Proof. unfold annotate. destruct (find _ hist); reflexivity. Qed.

Lemma annotate_body hist sha c :
  body (annotate hist sha c) =
  trackingMarker (commentIdOf c) sha ++ body c
  ++ (if reportedBefore hist c then stillOpenNotice else []).
Proof.
  unfold annotate, reportedBefore.
  destruct (find (reportedBy (set_id c (commentIdOf c))) hist) as [hr|] eqn:E.
  - assert (H : existsb (reportedBy c) hist = true).
    { apply find_existsb. now exists hr. }
    rewrite H. reflexivity.
  - apply find_none_existsb in E.
    replace (existsb (reportedBy c) hist) with false by (symmetry; exact E).
    simpl. now rewrite app_nil_r.
Qed.

Lemma annotate_frame hist sha c :
  path (annotate hist sha c) = path c
  /\ line (annotate hist sha c) = line c
  /\ severity (annotate hist sha c) = severity c
  /\ status (annotate hist sha c) = status c
  /\ source (annotate hist sha c) = source c.
Proof. unfold annotate. destruct (find _ hist); repeat split. Qed.

Lemma update_same h l c : update h l c l = c.
Proof. unfold update. now rewrite Nat.eqb_refl. Qed.

Lemma update_other h l c l' : l' <> l -> update h l c l' = h l'.
Proof.
  intros H. unfold update.
  destruct (Nat.eqb l' l) eqn:E; [|reflexivity].
  apply Nat.eqb_eq in E. contradiction.
Qed.

(** Objects that are not in the list are left as they were. *)
Lemma processComments_other hist sha news :
  forall h l, ~ In l news -> processComments hist sha news h l = h l.
Proof.
  induction news as [|l0 rest IH]; intros h l Hl; simpl; [reflexivity|].
  rewrite IH by (intros H; apply Hl; now right).
  apply update_other. intros ->. apply Hl. now left.
Qed.

(** An object listed once holds the result of one iteration on its
    value before the call. *)
Lemma processComments_once hist sha news :
  forall h l, NoDup news -> In l news ->
    processComments hist sha news h l = annotate hist sha (h l).
Proof.
  induction news as [|l0 rest IH]; intros h l Hnd Hl; simpl; [destruct Hl|].
  inversion Hnd as [|? ? Hnotin Hrest]; subst.
  destruct Hl as [->|Hl].
  - rewrite processComments_other by assumption. apply update_same.
  - rewrite IH by assumption.
    rewrite update_other; [reflexivity|].
    intros ->. contradiction.
Qed.

(** The fields the loop never writes. *)
Lemma processComments_frame hist sha news :
  forall h l,
    path (processComments hist sha news h l) = path (h l)
    /\ line (processComments hist sha news h l) = line (h l)
    /\ severity (processComments hist sha news h l) = severity (h l)
    /\ status (processComments hist sha news h l) = status (h l)
    /\ source (processComments hist sha news h l) = source (h l).
Proof.
  induction news as [|l0 rest IH]; intros h l; simpl; [repeat split|].
  destruct (IH (update h l0 (annotate hist sha (h l0))) l)
    as (Hp & Hl & Hs & Ht & Ho).
  rewrite Hp, Hl, Hs, Ht, Ho.
  destruct (Nat.eq_dec l l0) as [->|Hne].
  - rewrite update_same. apply annotate_frame.
  - rewrite update_other by assumption. repeat split.
Qed.

(** The body of an object that is visited grows. *)
Lemma annotate_longer hist sha c :
  (List.length (body c) < List.length (body (annotate hist sha c)))%nat.
Proof.
  rewrite annotate_body. unfold trackingMarker.
  rewrite !length_app. simpl. lia.
Qed.

Lemma processComments_longer hist sha news :
  forall h l, In l news ->
    (List.length (body (h l))
     < List.length (body (processComments hist sha news h l)))%nat.
Proof.
  induction news as [|l0 rest IH]; intros h l Hl; simpl; [destruct Hl|].
  destruct (in_dec Nat.eq_dec l rest) as [Hin|Hout].
  - eapply Nat.le_lt_trans; [|apply IH; exact Hin].
    destruct (Nat.eq_dec l l0) as [->|Hne].
    + rewrite update_same. pose proof (annotate_longer hist sha (h l0)). lia.
    + rewrite update_other by assumption. lia.
  - destruct Hl as [->|Hl]; [|contradiction].
    rewrite processComments_other by assumption.
    rewrite update_same. apply annotate_longer.
Qed.

(** Every visited object ends with an identifier and with the marker of that
    identifier in front of its body. *)
Lemma processComments_marked hist sha news :
  forall h l, In l news ->
    exists i rest,
      id (processComments hist sha news h l) = Some i
      /\ body (processComments hist sha news h l)
         = trackingMarker i sha ++ rest.
Proof.
  induction news as [|l0 rest IH]; intros h l Hl; simpl; [destruct Hl|].
  destruct (in_dec Nat.eq_dec l rest) as [Hin|Hout].
  - now apply IH.
  - destruct Hl as [->|Hl]; [|contradiction].
    rewrite processComments_other by assumption.
    rewrite update_same, annotate_id, annotate_body.
    eexists; eexists; split; reflexivity.
Qed.

(** ** [createComment] *)

(** Comments come out of [createComment] without identifier and without
    status. *)
Lemma createComment_fresh Number file chunk aiResponses c :
  In c (createComment Number file chunk aiResponses) ->
  id c = None /\ status c = None.
Proof.
  unfold createComment. rewrite in_flat_map. intros (r & _ & Hc).
  unfold commentFor in Hc.
  destruct (truthyPath (to file)); [|destruct Hc].
  destruct (negb (isLineInDiff chunk (Number (lineNumber r)))).
  - destruct (closestLine chunk (Number (lineNumber r))); [|destruct Hc].
    destruct Hc as [<-|[]]. now split.
  - destruct Hc as [<-|[]]. now split.
Qed.



(** The other cases the specification lists: 6 among 2, 5 and 9 is mapped to
    5, and 7 between 5 and 9 to 5. *)
Example lineMapper_examples :
  map line (commentFor decimalNumber sampleFile sampleChunk (finding "6"))
  = [Int 5]
  /\ map line
       (commentFor decimalNumber sampleFile
          (mkChunk [AddChange 5 []; AddChange 9 []]) (finding "7"))
     = [Int 5]
  /\ commentFor decimalNumber sampleFile (mkChunk [DeleteChange 7 []])
       (finding "7")
     = [].
Proof. repeat split. Qed.

(** C10. For a file with a target path, a finding whose reported line
    converts to NaN and a hunk with at least one added or context line:
    [createComment] yields one comment for the finding, on the smallest of
    these lines, and its body starts with the note, which reads NaN for the
    reported line. *)
Theorem createComment_NaN (Number : jsstring -> number) (file : File)
  (chunk : Chunk) (r : AIResponse) (fileTo : jsstring) :
  truthyPath (to file) = Some fileTo ->
  Number (lineNumber r) = NaN ->
  diffLines chunk <> [] ->
  exists m,
    createComment Number file chunk [r] =
    [ mkReviewComment
        (lit "[Original comment was for line NaN]" ++ [10] ++ reviewComment r)
        fileTo (Int m) (severityOrWarning (ai_severity r)) None None None ]
    /\ In m (diffLines chunk)
    /\ forall k, In k (diffLines chunk) -> m <= k.
Proof.
  intros Hto Hnum Hne.
  destruct (closestLine_NaN chunk Hne) as (m & Hm & Hin & Hmin).
  exists m. split; [|split; assumption].
  unfold createComment, commentFor; simpl.
  rewrite Hto, Hnum, isLineInDiff_NaN; simpl. rewrite Hm.
  reflexivity.
Qed.

Lemma createComment_NaN_witness :
  exists m,
    createComment decimalNumber sampleFile sampleChunk [finding "abc"] =
    [ mkReviewComment
        (lit "[Original comment was for line NaN]" ++ [10]
         ++ lit "unused import")
        (lit "a.py") (Int m) warning None None None ]
    /\ In m (diffLines sampleChunk)
    /\ forall k, In k (diffLines sampleChunk) -> m <= k.
Proof.
  apply (createComment_NaN decimalNumber sampleFile sampleChunk
           (finding "abc") (lit "a.py")).
  - reflexivity.
  - reflexivity.
  - discriminate.
Defined.

(** ** The verdict of [main] *)



Lemma includes_app_r (a s t : jsstring) :
  includes s t = true -> includes (a ++ s) t = true.
Proof.
  intros H. induction a as [|x a IH]; simpl; [exact H|].
  rewrite IH. apply orb_true_r.
Qed.



Lemma exceeds_unbounded (count : Z) : exceeds count (Int (-1)) = false.
Proof. reflexivity. Qed.



(** ** Comment modes *)

Lemma isResolved_false (c : ReviewComment) :
  isResolved c = false <-> status c <> Some resolved.
Proof.
  unfold isResolved. destruct (status c) as [[]|]; split; congruence.
Qed.






(** ** Identifier, status, match and resolved issues *)

Lemma filter_all {A : Type} (p : A -> bool) (l : list A) :
  (forall x, In x l -> p x = true) -> filter p l = l.
Proof.
  induction l as [|a l IH]; intros H; simpl; [reflexivity|].
  rewrite (H a (or_introl eq_refl)), IH; [reflexivity|].
  intros x Hx. apply H. now right.
Qed.

Lemma filter_none {A : Type} (p : A -> bool) (l : list A) :
  (forall x, In x l -> p x = false) -> filter p l = [].
Proof.
  induction l as [|a l IH]; intros H; simpl; [reflexivity|].
  rewrite (H a (or_introl eq_refl)). apply IH.
  intros x Hx. apply H. now right.
Qed.

Lemma notReported_spec (h : store) (news : list loc) (hr : HistoricalReview) :
  notReported h news hr = true
  <-> ~ In (id (comment hr)) (map (fun pc => id (h pc)) news).
Proof.
  unfold notReported. rewrite negb_true_iff. split.
  - intros H Hin. apply in_map_iff in Hin as (pc & Heq & Hpc).
    assert (Ht : existsb
                   (fun pc => optstr_eqb (id (h pc)) (id (comment hr))) news
                 = true).
    { apply existsb_exists. exists pc. split; [exact Hpc|].
      now apply optstr_eqb_eq. }
    congruence.
  - intros H. destruct (existsb _ news) eqn:E; [|reflexivity].
    apply existsb_exists in E as (pc & Hpc & Heq).
    apply optstr_eqb_eq in Heq. exfalso. apply H.
    apply in_map_iff. exists pc. now split.
Qed.

(** Only the identifiers of the listed objects and of the review matter. *)
Lemma notReported_ext (h h' : store) (news : list loc)
  (hr hr' : HistoricalReview) :
  (forall l, In l news -> id (h l) = id (h' l)) ->
  id (comment hr) = id (comment hr') ->
  notReported h news hr = notReported h' news hr'.
Proof.
  intros Hids Hid. unfold notReported. f_equal.
  induction news as [|l news IH]; simpl; [reflexivity|].
  rewrite IH by (intros l' Hl'; apply Hids; now right).
  now rewrite (Hids l (or_introl eq_refl)), Hid.
Qed.

Lemma processComments_isResolved hist sha news h l :
  isResolved (processComments hist sha news h l) = isResolved (h l).
Proof.
  unfold isResolved.
  destruct (processComments_frame hist sha news h l) as (_ & _ & _ & Hs & _).
  now rewrite Hs.
Qed.




(** A finding that comes without a status leaves the call without one. *)
Lemma status_counterexample :
  exists c,
    In c (returned (compareWithPreviousReviews [0]%nat [] sampleSha
                      sampleStore))
    /\ status c = None.
Proof.
  eexists. split; [left; reflexivity|reflexivity].
Qed.

(** C2, as the code has it.  An issue of the output is either one of the
    current issues, with the status it had when it was passed in (none for
    the comments [createComment] makes), or the resolved issue of a
    historical review, with status resolved. *)
Theorem status_of_output (news : list loc) (hist : list HistoricalReview)
  (sha : jsstring) (h : store) (c : ReviewComment) :
  let r := compareWithPreviousReviews news hist sha h in
  In c (returned r) ->
  (exists l, In l news /\ c = store_after r l /\ status c = status (h l))
  \/ (exists hr, In hr hist /\ c = resolvedComment hr
                 /\ status c = Some resolved).
Proof.
  cbv zeta. unfold returned; simpl. intros Hc.
  apply in_app_or in Hc as [Hc|Hc].
  - left. apply in_map_iff in Hc as (l & <- & Hl).
    exists l. split; [exact Hl|]. split; [reflexivity|].
    now destruct (processComments_frame hist sha news h l)
      as (_ & _ & _ & Hs & _).
  - right. apply in_map_iff in Hc as (hr & <- & Hhr).
    apply filter_In in Hhr as [Hhr _].
    exists hr. repeat split. exact Hhr.
Qed.

Lemma status_of_output_witness :
  let r := compareWithPreviousReviews [0; 1]%nat importHistory sampleSha
             movedStore in
  (exists l, In l [0; 1]%nat /\ store_after r 1%nat = store_after r l
             /\ status (store_after r 1%nat) = status (movedStore l))
  \/ (exists hr, In hr importHistory /\ store_after r 1%nat = resolvedComment hr
                 /\ status (store_after r 1%nat) = Some resolved).
Proof.
  apply (status_of_output [0; 1]%nat importHistory sampleSha movedStore).
  right; left; reflexivity.
Defined.

(** An issue that a historical review matches and an issue that none
    matches both leave the call without a status. *)
Lemma classification_counterexample :
  let r := compareWithPreviousReviews [0; 1]%nat importHistory sampleSha
             movedStore in
  (exists hr, In hr importHistory /\ matchesHistory (movedStore 1%nat) hr)
  /\ status (store_after r 1%nat) = None
  /\ ~ (exists hr, In hr importHistory /\ matchesHistory (movedStore 0%nat) hr)
  /\ status (store_after r 0%nat) = None.
Proof.
  cbv zeta. split; [|split; [reflexivity|split; [|reflexivity]]].
  - apply reportedBefore_spec. reflexivity.
  - intros H. apply reportedBefore_spec in H. discriminate.
Qed.

(** C3, as the code has it.  The sentence that says the issue was reported
    before is appended to the body of a current issue exactly when some
    historical review has the same path, a line within 3 of the issue's line
    and the same stripped body; the status of the issue is left as it was in
    both cases. *)
Theorem notice_iff_match (news : list loc) (hist : list HistoricalReview)
  (sha : jsstring) (h : store) (l : loc) :
  NoDup news -> In l news ->
  let r := compareWithPreviousReviews news hist sha h in
  let marker := trackingMarker (commentIdOf (h l)) sha in
  ((exists hr, In hr hist /\ matchesHistory (h l) hr) ->
     body (store_after r l) = marker ++ body (h l) ++ stillOpenNotice)
  /\ (~ (exists hr, In hr hist /\ matchesHistory (h l) hr) ->
      body (store_after r l) = marker ++ body (h l))
  /\ status (store_after r l) = status (h l).
Proof.
  intros Hnd Hl. cbv zeta. simpl.
  rewrite processComments_once by assumption.
  rewrite annotate_body. split; [|split].
  - intros H. apply reportedBefore_spec in H. now rewrite H.
  - intros H. destruct (reportedBefore hist (h l)) eqn:E.
    + apply reportedBefore_spec in E. contradiction.
    + now rewrite app_nil_r.
  - now destruct (annotate_frame hist sha (h l)) as (_ & _ & _ & Hs & _).
Qed.

Lemma notice_iff_match_witness :
  let r := compareWithPreviousReviews [0; 1]%nat importHistory sampleSha
             movedStore in
  body (store_after r 1%nat)
  = trackingMarker (commentIdOf movedImport) sampleSha
    ++ lit "unused import" ++ stillOpenNotice
  /\ body (store_after r 0%nat)
     = trackingMarker (commentIdOf typo) sampleSha ++ lit "typo in comment".
Proof.
  assert (N : NoDup [0%nat; 1%nat]) by distinct.
  destruct (notice_iff_match [0; 1]%nat importHistory sampleSha movedStore
              1%nat N (or_intror (or_introl eq_refl))) as (Hyes & _ & _).
  destruct (notice_iff_match [0; 1]%nat importHistory sampleSha movedStore
              0%nat N (or_introl eq_refl)) as (_ & Hno & _).
  split.
  - apply Hyes. apply reportedBefore_spec. reflexivity.
  - apply Hno. intros H. apply reportedBefore_spec in H. discriminate.
Defined.



(** The scenario of the specification: the unused import was published and
    the next run reports nothing; the output is the one resolved issue. *)
Example resolved_scenario :
  returned (compareWithPreviousReviews [] importHistory sampleSha sampleStore)
  = [ mkReviewComment (resolvedPrefix ++ lit "unused import") (lit "a.py")
        (Int 10) warning (Some (commentIdOf unusedImport)) (Some resolved)
        None ].
Proof. reflexivity. Qed.

(** A second run over the output of the first, on the same issue as it was
    passed to the first run: no historical review reports it, because the
    body in the history carries the marker, so its body is the one the first
    run made, without the sentence for a known issue, and it has no
    status. *)
Lemma second_run_counterexample :
  let r1 := compareWithPreviousReviews [0]%nat [] sampleSha sampleStore in
  let hist1 := map (asHistory sampleSha (lit "t")) (returned r1) in
  let r2 := compareWithPreviousReviews [0]%nat hist1 sampleSha sampleStore in
  reportedBefore hist1 (sampleStore 0%nat) = false
  /\ body (store_after r2 0%nat)
     = trackingMarker (commentIdOf unusedImport) sampleSha
       ++ lit "unused import"
  /\ status (store_after r2 0%nat) = None.
Proof.
  cbv zeta. repeat split; vm_compute; reflexivity.
Qed.

(** The same second run on the object as the first run left it, the history
    holding copies of the first output: a review now reports the issue, but
    its identifier is a new one and the issue of the first run comes back as
    resolved. *)
Example second_run_in_place :
  let r1 := compareWithPreviousReviews [0]%nat [] sampleSha sampleStore in
  let hist1 := map (asHistory sampleSha (lit "t")) (returned r1) in
  let r2 :=
    compareWithPreviousReviews [0]%nat hist1 sampleSha (store_after r1) in
  reportedBefore hist1 (store_after r1 0%nat) = true
  /\ id (store_after r2 0%nat) <> id (store_after r1 0%nat)
  /\ map isResolved (returned r2) = [false; true].
Proof.
  cbv zeta. repeat split; vm_compute; try reflexivity; discriminate.
Qed.

(** C6, as the code has it.  A second run on the same issues, as they were
    passed to the first run, with the output of the first run as history:
    every issue gets the identifier it got in the first run; none of the
    first run's current issues is reported as resolved, the resolved issues
    of the second run being those of the first, resolved again; with no
    history before the first run the second has no resolved issue; and no
    status is written on the current issues. *)
Theorem second_run (news : list loc) (hist0 : list HistoricalReview)
  (sha1 sha2 stamp : jsstring) (h : store) :
  NoDup news ->
  let r1 := compareWithPreviousReviews news hist0 sha1 h in
  let hist1 := map (asHistory sha1 stamp) (returned r1) in
  let r2 := compareWithPreviousReviews news hist1 sha2 h in
  (forall l, In l news -> id (store_after r2 l) = id (store_after r1 l))
  /\ resolvedComments r2
     = map resolvedComment
         (map (asHistory sha1 stamp) (resolvedComments r1))
  /\ (hist0 = [] -> resolvedComments r2 = [])
  /\ (forall l, status (store_after r2 l) = status (h l)).
Proof.
  intros Hnd. cbv zeta.
  set (h1 := processComments hist0 sha1 news h).
  set (hist1 := map (asHistory sha1 stamp)
                  (returned (compareWithPreviousReviews news hist0 sha1 h))).
  set (h2 := processComments hist1 sha2 news h).
  assert (Hids : forall l, In l news -> id (h2 l) = id (h1 l)).
  { intros l Hl. unfold h1, h2.
    rewrite !processComments_once by assumption. now rewrite !annotate_id. }
  assert (Hres : resolvedComments
                   (compareWithPreviousReviews news hist1 sha2 h)
                 = map resolvedComment
                     (map (asHistory sha1 stamp)
                        (resolvedComments
                           (compareWithPreviousReviews news hist0 sha1 h)))).
  { simpl. fold h1 h2. f_equal. unfold hist1, returned; simpl. fold h1.
    rewrite map_app, filter_app.
    rewrite (filter_none (notReported h2 news)
               (map (asHistory sha1 stamp) (map h1 news))).
    - simpl. apply filter_all.
      intros hr Hhr. apply in_map_iff in Hhr as (c & <- & Hc).
      apply in_map_iff in Hc as (hr0 & <- & Hhr0).
      apply filter_In in Hhr0 as [_ Habs].
      rewrite <- Habs. now apply notReported_ext.
    - intros hr Hhr. apply in_map_iff in Hhr as (c & <- & Hc).
      apply in_map_iff in Hc as (l & <- & Hl).
      destruct (notReported h2 news (asHistory sha1 stamp (h1 l))) eqn:E;
        [|reflexivity].
      apply notReported_spec in E. exfalso. apply E.
      apply in_map_iff. exists l. split; [|exact Hl].
      simpl. now apply Hids. }
  split; [exact Hids|]. split; [exact Hres|]. split.
  - intros ->. rewrite Hres. reflexivity.
  - intros l. simpl. fold h2.
    now destruct (processComments_frame hist1 sha2 news h l)
      as (_ & _ & _ & Hs & _).
Qed.

Lemma second_run_witness :
  let r1 := compareWithPreviousReviews [0; 1]%nat importHistory sampleSha
              movedStore in
  let hist1 := map (asHistory sampleSha (lit "t")) (returned r1) in
  let r2 := compareWithPreviousReviews [0; 1]%nat hist1 (lit "badc0de")
              movedStore in
  (forall l, In l [0; 1]%nat -> id (store_after r2 l) = id (store_after r1 l))
  /\ resolvedComments r2
     = map resolvedComment
         (map (asHistory sampleSha (lit "t")) (resolvedComments r1))
  /\ (importHistory = [] -> resolvedComments r2 = [])
  /\ (forall l, status (store_after r2 l) = status (movedStore l)).
Proof.
  apply (second_run [0; 1]%nat importHistory sampleSha (lit "badc0de")
           (lit "t") movedStore).
  distinct.
Defined.

(** The call rewrites the identifier and the body of the object it is
    given. *)
Lemma in_place_counterexample :
  let r := compareWithPreviousReviews [0]%nat [] sampleSha sampleStore in
  id (sampleStore 0%nat) = None
  /\ id (store_after r 0%nat) = Some (commentIdOf unusedImport)
  /\ body (sampleStore 0%nat) = lit "unused import"
  /\ body (store_after r 0%nat)
     = trackingMarker (commentIdOf unusedImport) sampleSha
       ++ lit "unused import"
  /\ id (store_after r 0%nat) <> id (sampleStore 0%nat)
  /\ body (store_after r 0%nat) <> body (sampleStore 0%nat).
Proof.
  cbv zeta. repeat split; vm_compute; discriminate.
Qed.

(** C9, as the code has it.  The call updates the objects of its input list
    in place: each ends with an identifier and with the marker of that
    identifier in front of a body that is longer than before.  It writes
    nothing else: path, line, severity, status and source of every object
    are as before, objects that are not in the list are untouched, and the
    processed comments it returns are the objects it was given. *)
Theorem updates_in_place (news : list loc) (hist : list HistoricalReview)
  (sha : jsstring) (h : store) :
  let r := compareWithPreviousReviews news hist sha h in
  processedComments r = news
  /\ (forall l, In l news ->
        (exists i rest,
            id (store_after r l) = Some i
            /\ body (store_after r l) = trackingMarker i sha ++ rest)
        /\ (List.length (body (h l))
            < List.length (body (store_after r l)))%nat)
  /\ (forall l, ~ In l news -> store_after r l = h l)
  /\ (forall l,
        path (store_after r l) = path (h l)
        /\ line (store_after r l) = line (h l)
        /\ severity (store_after r l) = severity (h l)
        /\ status (store_after r l) = status (h l)
        /\ source (store_after r l) = source (h l)).
Proof.
  cbv zeta. simpl. split; [reflexivity|]. split; [|split].
  - intros l Hl. split.
    + now apply processComments_marked.
    + now apply processComments_longer.
  - intros l Hl. now apply processComments_other.
  - intros l. apply processComments_frame.
Qed.

Lemma updates_in_place_witness :
  let r := compareWithPreviousReviews [1; 1]%nat importHistory sampleSha
             movedStore in
  (List.length (body (movedStore 1%nat))
   < List.length (body (store_after r 1%nat)))%nat
  /\ store_after r 0%nat = typo
  /\ line (store_after r 1%nat) = Int 11.
Proof.
  destruct (updates_in_place [1; 1]%nat importHistory sampleSha movedStore)
    as (_ & Hin & Hout & Hframe).
  destruct (Hin 1%nat (or_introl eq_refl)) as (_ & Hlen).
  destruct (Hframe 1%nat) as (_ & Hline & _).
  split; [exact Hlen|]. split; [|exact Hline].
  apply (Hout 0%nat). intros [H|[H|[]]]; discriminate.
Defined.

(** * Further properties of the code *)

(** ** [createComment]: where comments land and what the note changes *)

(** Every comment [createComment] makes is on an added or context line of
    the hunk and on the target path of the file, and has no identifier, no
    status and no source; a finding gives at most one comment. *)
Theorem createComment_on_hunk (Number : jsstring -> number) (file : File)
  (chunk : Chunk) (aiResponses : list AIResponse) (c : ReviewComment) :
  In c (createComment Number file chunk aiResponses) ->
  truthyPath (to file) = Some (path c)
  /\ (exists m, In m (diffLines chunk) /\ line c = Int m)
  /\ id c = None /\ status c = None /\ source c = None
  /\ (List.length (createComment Number file chunk aiResponses)
      <= List.length aiResponses)%nat.
Proof.
  intros Hc. split; [|split; [|split; [|split; [|split]]]].
  1-5: unfold createComment in Hc; apply in_flat_map in Hc as (r & _ & Hc);
    unfold commentFor in Hc;
    destruct (truthyPath (to file)) as [fileTo|]; [|destruct Hc];
    destruct (isLineInDiff chunk (Number (lineNumber r))) eqn:E; simpl in Hc.
  - destruct Hc as [<-|[]]. reflexivity.
  - destruct (closestLine chunk (Number (lineNumber r))); [|destruct Hc].
    destruct Hc as [<-|[]]. reflexivity.
  - destruct Hc as [<-|[]]. simpl.
    destruct (Number (lineNumber r)) as [n|].
    + exists n. split; [now apply isLineInDiff_In|reflexivity].
    + now rewrite isLineInDiff_NaN in E.
  - destruct (closestLine chunk (Number (lineNumber r))) as [m|] eqn:Em;
      [|destruct Hc].
    destruct Hc as [<-|[]]. simpl. exists m. split; [|reflexivity].
    assert (Hne : diffLines chunk <> []).
    { intros Hnil.
      apply (closestLine_None chunk (Number (lineNumber r))) in Hnil.
      congruence. }
    destruct (Number (lineNumber r)) as [n|].
    + destruct (closestLine_int chunk n Hne) as (m' & Hm' & Hin & _).
      congruence.
    + destruct (closestLine_NaN chunk Hne) as (m' & Hm' & Hin & _).
      congruence.
  - now destruct Hc as [<-|[]].
  - destruct (closestLine chunk (Number (lineNumber r))); [|destruct Hc].
    now destruct Hc as [<-|[]].
  - now destruct Hc as [<-|[]].
  - destruct (closestLine chunk (Number (lineNumber r))); [|destruct Hc].
    now destruct Hc as [<-|[]].
  - now destruct Hc as [<-|[]].
  - destruct (closestLine chunk (Number (lineNumber r))); [|destruct Hc].
    now destruct Hc as [<-|[]].
  - clear Hc. unfold createComment.
    induction aiResponses as [|r rs IH]; simpl; [lia|].
    rewrite length_app.
    assert (H1 : (List.length (commentFor Number file chunk r) <= 1)%nat).
    { unfold commentFor. destruct (truthyPath (to file)); [|simpl; lia].
      destruct (negb _); [|simpl; lia].
      destruct (closestLine _ _); simpl; lia. }
    lia.
Qed.

Lemma createComment_on_hunk_witness :
  let made :=
    createComment decimalNumber sampleFile sampleChunk
      [finding "7"; finding "abc"; finding "5"] in
  let c := nth 1 made unusedImport in
  truthyPath (to sampleFile) = Some (path c)
  /\ (exists m, In m (diffLines sampleChunk) /\ line c = Int m)
  /\ id c = None /\ status c = None /\ source c = None
  /\ (List.length made <= 3)%nat.
Proof.
  apply (createComment_on_hunk decimalNumber sampleFile sampleChunk
           [finding "7"; finding "abc"; finding "5"]).
  right; left. reflexivity.
Defined.

Lemma uint_text_inGroup (d : Decimal.uint) :
  forallb inGroup (lit (NilEmpty.string_of_uint d)) = true.
Proof. induction d; simpl; trivial. Qed.

Lemma Number_toString_inGroup (n : number) :
  forallb inGroup (Number_toString n) = true.
Proof.
  destruct n as [z|]; [|reflexivity].
  unfold Number_toString, Z_toString, NilZero.string_of_int.
  destruct (Z.to_int z) as [d|d]; unfold NilZero.string_of_uint.
  - destruct d; try reflexivity; apply uint_text_inGroup.
  - change (forallb inGroup
              (45 :: lit match d with
                         | Decimal.Nil => "0"%string
                         | _ => NilEmpty.string_of_uint d
                         end) = true).
    simpl. destruct d; try reflexivity; apply uint_text_inGroup.
Qed.

Lemma closes_group (g rest : jsstring) :
  forallb inGroup g = true -> closes (g ++ rbracket :: rest) = true.
Proof.
  induction g as [|c g IH]; simpl; intros H; [reflexivity|].
  apply andb_true_iff in H as [Hc Hg]. unfold inGroup in Hc.
  apply andb_true_iff in Hc as [H1 H2].
  apply negb_true_iff in H1, H2. rewrite H1, H2. now apply IH.
Qed.

Lemma removeBracketed_group (g rest : jsstring) :
  forallb inGroup g = true ->
  removeBracketed_from true (g ++ rbracket :: rest)
  = removeBracketed_from false rest.
Proof.
  induction g as [|c g IH]; simpl; intros H; [reflexivity|].
  apply andb_true_iff in H as [Hc Hg]. unfold inGroup in Hc.
  apply andb_true_iff in Hc as [H1 _].
  apply negb_true_iff in H1. rewrite H1. now apply IH.
Qed.

Lemma note_shape (lineNum : number) (text : jsstring) :
  originalLineNote lineNum ++ text
  = lbracket
    :: (lit "Original comment was for line " ++ Number_toString lineNum)
       ++ rbracket :: 10 :: text.
Proof.
  unfold originalLineNote. rewrite <- !app_assoc. reflexivity.
Qed.

Lemma removeBracketed_open (rest : jsstring) :
  closes rest = true ->
  removeBracketed_from false (lbracket :: rest)
  = removeBracketed_from true rest.
Proof. intros H. simpl. now rewrite H. Qed.

Lemma removeBracketed_newline (rest : jsstring) :
  removeBracketed_from false (10 :: rest)
  = 10 :: removeBracketed_from false rest.
Proof. reflexivity. Qed.

Lemma trim_newline (s : jsstring) : trim (10 :: s) = trim s.
Proof. reflexivity. Qed.

(** The note in front of a relocated comment disappears when the body is
    stripped. *)
Lemma stripped_note (lineNum : number) (text : jsstring) :
  stripped (originalLineNote lineNum ++ text) = stripped text.
Proof.
  assert (Hg : forallb inGroup
                 (lit "Original comment was for line "
                  ++ Number_toString lineNum) = true).
  { rewrite forallb_app, Number_toString_inGroup. reflexivity. }
  unfold stripped, removeBracketed. rewrite note_shape.
  rewrite removeBracketed_open by (apply closes_group; exact Hg).
  rewrite (removeBracketed_group _ _ Hg).
  rewrite removeBracketed_newline. apply trim_newline.
Qed.

(** The stripped body of a comment made by [createComment] is the stripped
    text of the finding, whether the comment was moved to another line or
    not: the note about the reported line plays no part in the search for a
    previous review (while it is part of the identifier). *)
Theorem note_is_stripped (Number : jsstring -> number) (file : File)
  (chunk : Chunk) (r : AIResponse) (c : ReviewComment) :
  In c (commentFor Number file chunk r) ->
  stripped (body c) = stripped (reviewComment r).
Proof.
  unfold commentFor. destruct (truthyPath (to file)); [|intros []].
  destruct (negb _).
  - destruct (closestLine _ _); [|intros []].
    intros [<-|[]]. apply stripped_note.
  - intros [<-|[]]. reflexivity.
Qed.

Lemma note_is_stripped_witness :
  stripped (body (nth 0 remapped unusedImport))
  = stripped (lit "unused import")
  /\ stripped (body (nth 1 remapped unusedImport))
     = stripped (lit "unused import").
Proof.
  split.
  - apply (note_is_stripped decimalNumber sampleFile sampleChunk (finding "6")).
    left. reflexivity.
  - apply (note_is_stripped decimalNumber sampleFile sampleChunk (finding "7")).
    left. reflexivity.
Defined.

(** ** Reading published comments back *)

Lemma startsWith_split (t s : jsstring) :
  startsWith s t = true -> s = t ++ skipn (List.length t) s.
Proof.
  revert s; induction t as [|y t IH]; intros s H; [now destruct s|].
  destruct s as [|x s]; simpl in H; [discriminate|].
  apply andb_true_iff in H as [Hx Ht]. apply Z.eqb_eq in Hx. subst y.
  simpl. f_equal. now apply IH.
Qed.

Lemma startsWith_self (t rest : jsstring) : startsWith (t ++ rest) t = true.
Proof.
  induction t as [|y t IH]; simpl; [now destruct rest|].
  now rewrite Z.eqb_refl, IH.
Qed.

Lemma literal_split (t s s' : jsstring) : literal t s = Some s' -> s = t ++ s'.
Proof.
  unfold literal. destruct (startsWith s t) eqn:E; [|discriminate].
  intros [= <-]. now apply startsWith_split.
Qed.

Lemma literal_here (t rest : jsstring) : literal t (t ++ rest) = Some rest.
Proof.
  unfold literal. rewrite startsWith_self. f_equal.
  induction t as [|y t IH]; simpl; [reflexivity|exact IH].
Qed.

Lemma literal_other (h c : Z) (t rest : jsstring) :
  (c =? h) = false -> literal (h :: t) (c :: rest) = None.
Proof. intros H. unfold literal. simpl. now rewrite H. Qed.

Lemma lazyThen_split {R : Type} (k : jsstring -> option R) (s g : jsstring)
  (r : R) :
  lazyThen k s = Some (g, r) ->
  exists s', s = g ++ s' /\ k s' = Some r /\ forallb notTerminator g = true.
Proof.
  revert g; induction s as [|c s IH]; intros g; simpl.
  - destruct (k []) eqn:E; [|discriminate].
    intros [= <- <-]. now exists [].
  - destruct (k (c :: s)) eqn:E.
    + intros [= <- <-]. now exists (c :: s).
    + destruct (isLineTerminator c) eqn:Ec; [discriminate|].
      destruct (lazyThen k s) as [[g' r']|] eqn:El; [|discriminate].
      intros [= <- <-]. destruct (IH g' eq_refl) as (s' & -> & Hk & Hg).
      exists s'. split; [reflexivity|]. split; [exact Hk|].
      simpl. unfold notTerminator at 1. now rewrite Ec.
Qed.

Lemma lazyThen_skip {R : Type} (k : jsstring -> option R) (g s' : jsstring)
  (r : R) :
  (forall c t, In c g -> k (c :: t) = None) ->
  forallb notTerminator g = true ->
  k s' = Some r ->
  lazyThen k (g ++ s') = Some (g, r).
Proof.
  intros Hk Hg Hs. induction g as [|c g IH]; simpl.
  - destruct s' as [|x s']; simpl; now rewrite Hs.
  - rewrite (Hk c (g ++ s') (or_introl eq_refl)).
    simpl in Hg. apply andb_true_iff in Hg as [Hc Hg].
    unfold notTerminator in Hc. apply negb_true_iff in Hc. rewrite Hc.
    rewrite IH; [reflexivity| |exact Hg].
    intros c' t Hc'. apply Hk. now right.
Qed.

Lemma markerAt_split (s reviewId sha : jsstring) :
  markerAt s = Some (reviewId, sha) ->
  exists rest,
    s = markerText reviewId sha ++ rest
    /\ forallb notTerminator reviewId = true
    /\ forallb notTerminator sha = true.
Proof.
  unfold markerAt, markerText.
  destruct (literal (lit "<!--review-id:") s) as [s1|] eqn:E1; [|discriminate].
  apply literal_split in E1. subst s.
  destruct (lazyThen _ s1) as [[g [sha' rest]]|] eqn:E2; [|discriminate].
  intros [= <- <-].
  apply lazyThen_split in E2 as (s2 & -> & Hk & Hg).
  destruct (literal (lit ",commit:") s2) as [s3|] eqn:E3; [|discriminate].
  apply literal_split in E3. subst s2.
  apply lazyThen_split in Hk as (s4 & -> & Hk & Hsha).
  apply literal_split in Hk. subst s4.
  exists rest. rewrite <- !app_assoc. now repeat split.
Qed.

Lemma matchMarker_split (s reviewId sha : jsstring) :
  matchMarker s = Some (reviewId, sha) ->
  exists pre rest,
    s = pre ++ markerText reviewId sha ++ rest
    /\ forallb notTerminator reviewId = true
    /\ forallb notTerminator sha = true.
Proof.
  induction s as [|c s IH].
  - discriminate.
  - cbn [matchMarker]. destruct (markerAt (c :: s)) as [g|] eqn:E.
    + intros [= ->]. apply markerAt_split in E as (rest & E & H).
      exists [], rest. now split.
    + intros H. destruct (IH H) as (pre & rest & -> & Hg).
      exists (c :: pre), rest. now split.
Qed.

Lemma includes_inside (pre t rest : jsstring) :
  includes (pre ++ t ++ rest) t = true.
Proof.
  apply includes_app_r.
  pose proof (startsWith_self t rest) as H.
  destruct (t ++ rest) as [|x l].
  - destruct t; [reflexivity|discriminate H].
  - cbn [includes]. now rewrite H.
Qed.

(** A review is read only from a listed comment whose body holds a complete
    marker, and it carries what the marker says: its identifier and commit
    are the two groups of the marker, neither spans a line, the identifier
    of the comment it holds is its own, the status is active, the path is
    the listed one and the line is one when none is listed.  A failed
    request gives no review at all. *)
Theorem previousReviews_from_markers (response : option (list ListedComment))
  (hr : HistoricalReview) :
  In hr (getPreviousReviews response) ->
  exists comments listed,
    response = Some comments /\ In listed comments
    /\ includes (listed_body listed) (markerText (hr_id hr) (commitSha hr))
       = true
    /\ forallb notTerminator (hr_id hr) = true
    /\ forallb notTerminator (commitSha hr) = true
    /\ id (comment hr) = Some (hr_id hr)
    /\ status (comment hr) = Some active
    /\ path (comment hr) = listed_path listed
    /\ line (comment hr) = Int (lineOrOne (listed_line listed))
    /\ lineOrOne (listed_line listed) <> 0.
Proof.
  destruct response as [comments|]; [|intros []].
  unfold getPreviousReviews. rewrite in_flat_map.
  intros (listed & Hin & Hhr). exists comments, listed.
  split; [reflexivity|]. split; [exact Hin|].
  unfold previousReview in Hhr.
  destruct (matchMarker (listed_body listed)) as [[reviewId sha]|] eqn:E;
    [|destruct Hhr].
  destruct Hhr as [<-|[]]. simpl.
  apply matchMarker_split in E as (pre & rest & -> & Hid & Hsha).
  split; [apply includes_inside|].
  repeat split; trivial.
  unfold lineOrOne. destruct (listed_line listed) as [z|]; [|discriminate].
  destruct (z =? 0) eqn:Ez; [discriminate|]. now apply Z.eqb_neq.
Qed.

Lemma previousReviews_from_markers_witness :
  let r := compareWithPreviousReviews [0; 1]%nat importHistory sampleSha
             movedStore in
  let listed :=
    mkListedComment (publishedBody (store_after r 1%nat)) (lit "a.py") None
      (lit "2024-01-02T00:00:00Z") in
  exists hr,
    getPreviousReviews (Some [listed]) = [hr]
    /\ hr_id hr = commentIdOf movedImport
    /\ commitSha hr = sampleSha
    /\ line (comment hr) = Int 1.
Proof.
  cbv zeta. eexists. split; [vm_compute; reflexivity|].
  match goal with
  | |- hr_id ?h = _ /\ _ =>
      destruct (previousReviews_from_markers
                  (Some [mkListedComment
                           (publishedBody
                              (store_after
                                 (compareWithPreviousReviews [0; 1]%nat
                                    importHistory sampleSha movedStore)
                                 1%nat))
                           (lit "a.py") None (lit "2024-01-02T00:00:00Z")])
                  h (or_introl eq_refl))
        as (cs & l & [= <-] & [<-|[]] & _ & _ & _ & _ & _ & _ & Hline & _)
  end.
  split; [vm_compute; reflexivity|]. split; [vm_compute; reflexivity|].
  exact Hline.
Defined.

(** ** Publishing and reading back *)

Lemma base64_digit_idChar (i : Z) :
  idChar (base64_digit i) = true /\ shaChar (base64_digit i) = true
  \/ base64_digit i = 0.
Proof.
  unfold base64_digit.
  destruct (nth_in_or_default (Z.to_nat i) base64_alphabet 0) as [Hin|H0];
    [left|now right].
  assert (Hall : forallb (fun c => idChar c && shaChar c) base64_alphabet
                 = true) by reflexivity.
  rewrite forallb_forall in Hall. specialize (Hall _ Hin).
  now apply andb_true_iff in Hall.
Qed.

Lemma base64_digit_marker (i : Z) : idChar (base64_digit i) = true.
Proof.
  destruct (base64_digit_idChar i) as [[H _]|H]; [exact H|].
  now rewrite H.
Qed.

Lemma toBase64_idChar_bounded (n : nat) :
  forall bs, (List.length bs <= n)%nat -> forallb idChar (toBase64 bs) = true.
Proof.
  induction n as [|n IH]; intros bs Hn.
  - destruct bs; [reflexivity|simpl in Hn; lia].
  - destruct bs as [|a [|b [|c rest]]]; cbn [toBase64 forallb app].
    + reflexivity.
    + now rewrite !base64_digit_marker.
    + now rewrite !base64_digit_marker.
    + rewrite !base64_digit_marker. cbn [andb].
      apply IH. simpl in Hn. lia.
Qed.

(** An identifier has no comma and no line terminator in it. *)
Lemma commentId_idChar (c : ReviewComment) :
  forallb idChar (commentIdOf c) = true.
Proof.
  unfold commentIdOf. eapply toBase64_idChar_bounded. apply Nat.le_refl.
Qed.

Lemma idChar_notTerminator (g : jsstring) :
  forallb idChar g = true -> forallb notTerminator g = true.
Proof.
  induction g as [|c g IH]; simpl; [reflexivity|].
  intros H. apply andb_true_iff in H as [Hc Hg].
  unfold idChar in Hc. apply andb_true_iff in Hc as [_ Hc].
  unfold notTerminator at 1. now rewrite Hc, IH.
Qed.

Lemma shaChar_notTerminator (g : jsstring) :
  forallb shaChar g = true -> forallb notTerminator g = true.
Proof.
  induction g as [|c g IH]; simpl; [reflexivity|].
  intros H. apply andb_true_iff in H as [Hc Hg].
  unfold shaChar in Hc. apply andb_true_iff in Hc as [_ Hc].
  unfold notTerminator at 1. now rewrite Hc, IH.
Qed.

(** The pattern reads a marker back when the identifier has no comma, the
    commit no hyphen, and neither a line terminator. *)
Lemma markerAt_here (reviewId sha rest : jsstring) :
  forallb idChar reviewId = true -> forallb shaChar sha = true ->
  markerAt (markerText reviewId sha ++ rest) = Some (reviewId, sha).
Proof.
  intros Hid Hsha. unfold markerAt, markerText.
  rewrite <- !app_assoc, literal_here.
  rewrite (lazyThen_skip _ reviewId _ (sha, rest)); [reflexivity| | |].
  - intros c t Hc. rewrite forallb_forall in Hid. specialize (Hid c Hc).
    unfold idChar in Hid. apply andb_true_iff in Hid as [Hc' _].
    apply negb_true_iff in Hc'.
    change (lit ",commit:") with (44 :: lit "commit:").
    now rewrite (literal_other 44 c _ t Hc').
  - now apply idChar_notTerminator.
  - rewrite literal_here.
    apply lazyThen_skip; [|now apply shaChar_notTerminator|apply literal_here].
    intros c t Hc. rewrite forallb_forall in Hsha. specialize (Hsha c Hc).
    unfold shaChar in Hsha. apply andb_true_iff in Hsha as [Hc' _].
    apply negb_true_iff in Hc'.
    change (lit "-->") with (45 :: lit "->").
    now apply literal_other.
Qed.

Lemma matchMarker_here (s : jsstring) (groups : jsstring * jsstring) :
  markerAt s = Some groups -> matchMarker s = Some groups.
Proof.
  intros H. destruct s; [discriminate H|].
  cbn [matchMarker]. now rewrite H.
Qed.

Lemma markerAt_other (c : Z) (rest : jsstring) :
  (c =? 60) = false -> markerAt (c :: rest) = None.
Proof.
  intros H. unfold markerAt.
  change (lit "<!--review-id:") with (60 :: lit "!--review-id:").
  now rewrite literal_other.
Qed.

Lemma matchMarker_skip (pre s : jsstring) :
  forallb (fun c => negb (c =? 60)) pre = true ->
  matchMarker (pre ++ s) = matchMarker s.
Proof.
  induction pre as [|c pre IH]; intros H; [reflexivity|].
  simpl in H. apply andb_true_iff in H as [Hc Hpre].
  apply negb_true_iff in Hc.
  cbn [app matchMarker]. rewrite (markerAt_other c _ Hc). now apply IH.
Qed.

Lemma tagAt_other (c : Z) (rest : jsstring) :
  (c =? lbracket) = false -> tagAt (c :: rest) = None.
Proof. intros H. unfold tagAt. now rewrite H. Qed.

Lemma matchTag_skip (pre s : jsstring) :
  forallb (fun c => negb (c =? lbracket)) pre = true ->
  matchTag (pre ++ s) = matchTag s.
Proof.
  induction pre as [|c pre IH]; intros H; [reflexivity|].
  simpl in H. apply andb_true_iff in H as [Hc Hpre].
  apply negb_true_iff in Hc.
  cbn [app matchTag]. rewrite (tagAt_other c _ Hc). now apply IH.
Qed.

(** The tag that [createReviewComment] writes is the first one in the
    published body, and it reads back as the severity. *)
Lemma matchTag_published (c : ReviewComment) :
  match matchTag (publishedBody c) with
  | Some g => severityOfName (toLowerCase g)
  | None => None
  end = Some (severity c).
Proof.
  unfold publishedBody.
  replace (getSeverityEmoji (severity c) ++ lit " ["
           ++ toUpperCase (severityName (severity c)) ++ lit "] " ++ body c)
    with ((getSeverityEmoji (severity c) ++ [32])
          ++ lbracket :: toUpperCase (severityName (severity c))
             ++ rbracket :: 32 :: body c).
  2:{ rewrite <- !app_assoc. reflexivity. }
  rewrite matchTag_skip by (destruct (severity c); reflexivity).
  destruct (severity c); reflexivity.
Qed.

Lemma matchMarker_published (c : ReviewComment) (reviewId sha rest : jsstring) :
  body c = trackingMarker reviewId sha ++ rest ->
  forallb idChar reviewId = true -> forallb shaChar sha = true ->
  matchMarker (publishedBody c) = Some (reviewId, sha).
Proof.
  intros Hbody Hid Hsha. unfold publishedBody. rewrite Hbody.
  rewrite !app_assoc. rewrite <- (app_assoc _ (trackingMarker reviewId sha)).
  rewrite matchMarker_skip.
  - apply matchMarker_here. unfold trackingMarker.
    replace ((lit "<!--review-id:" ++ reviewId ++ lit ",commit:" ++ sha
              ++ lit "-->" ++ [10]) ++ rest)
      with (markerText reviewId sha ++ 10 :: rest).
    + now apply markerAt_here.
    + unfold markerText. rewrite <- !app_assoc. reflexivity.
  - destruct (severity c); reflexivity.
Qed.

(** What is read back from the published form of a current issue. *)
Lemma reads_back (news : list loc)
  (hist : list HistoricalReview) (sha : jsstring) (h : store) (l : loc)
  (listed : ListedComment) :
  NoDup news -> In l news -> forallb shaChar sha = true ->
  let r := compareWithPreviousReviews news hist sha h in
  listed_body listed = publishedBody (store_after r l) ->
  exists hr,
    getPreviousReviews (Some [listed]) = [hr]
    /\ Some (hr_id hr) = id (store_after r l)
    /\ id (comment hr) = id (store_after r l)
    /\ commitSha hr = sha
    /\ severity (comment hr) = severity (h l)
    /\ path (comment hr) = listed_path listed
    /\ timestamp hr = created_at listed.
Proof.
  intros Hnd Hl Hsha. cbv zeta. intros Hbody.
  set (c := store_after (compareWithPreviousReviews news hist sha h) l) in *.
  assert (Hc : c = annotate hist sha (h l)).
  { unfold c. simpl. now apply processComments_once. }
  assert (Hmarker : matchMarker (publishedBody c)
                    = Some (commentIdOf (h l), sha)).
  { eapply matchMarker_published; [|apply commentId_idChar|exact Hsha].
    rewrite Hc. apply annotate_body. }
  assert (Hsev : severity c = severity (h l)).
  { rewrite Hc. now destruct (annotate_frame hist sha (h l))
      as (_ & _ & Hs & _). }
  assert (Hid : id c = Some (commentIdOf (h l))).
  { rewrite Hc. apply annotate_id. }
  eexists. split.
  - unfold getPreviousReviews, previousReview. cbn [flat_map].
    rewrite Hbody, Hmarker, matchTag_published. reflexivity.
  - cbn [hr_id comment commitSha timestamp id severity path].
    rewrite Hid, Hsev. repeat split.
Qed.

(** A current issue of a run, published by [createReviewComment] and listed
    again by the platform, is read back by [getPreviousReviews] as a review
    with the identifier the run gave the issue, the commit of the run and
    the severity of the issue, provided the commit reference has no hyphen
    and no line terminator in it (a hexadecimal hash has none). *)
Theorem published_issue_reads_back (news : list loc)
  (hist : list HistoricalReview) (sha : jsstring) (h : store) (l : loc)
  (listed : ListedComment) :
  NoDup news -> In l news -> forallb shaChar sha = true ->
  let r := compareWithPreviousReviews news hist sha h in
  listed_body listed = publishedBody (store_after r l) ->
  exists hr,
    getPreviousReviews (Some [listed]) = [hr]
    /\ Some (hr_id hr) = id (store_after r l)
    /\ id (comment hr) = id (store_after r l)
    /\ commitSha hr = sha
    /\ severity (comment hr) = severity (h l)
    /\ path (comment hr) = listed_path listed
    /\ timestamp hr = created_at listed.
Proof. exact (reads_back news hist sha h l listed). Qed.

Lemma published_issue_reads_back_witness :
  let r := compareWithPreviousReviews [0; 1]%nat importHistory sampleSha
             movedStore in
  let listed :=
    mkListedComment (publishedBody (store_after r 1%nat)) (lit "a.py")
      (Some 11) (lit "2024-01-02T00:00:00Z") in
  exists hr,
    getPreviousReviews (Some [listed]) = [hr]
    /\ Some (hr_id hr) = id (store_after r 1%nat)
    /\ id (comment hr) = id (store_after r 1%nat)
    /\ commitSha hr = sampleSha
    /\ severity (comment hr) = severity (movedStore 1%nat)
    /\ path (comment hr) = lit "a.py"
    /\ timestamp hr = lit "2024-01-02T00:00:00Z".
Proof.
  apply (published_issue_reads_back [0; 1]%nat importHistory sampleSha
           movedStore 1%nat
           (mkListedComment
              (publishedBody
                 (store_after
                    (compareWithPreviousReviews [0; 1]%nat importHistory
                       sampleSha movedStore) 1%nat))
              (lit "a.py") (Some 11) (lit "2024-01-02T00:00:00Z"))).
  - distinct.
  - right; left; reflexivity.
  - reflexivity.
  - reflexivity.
Defined.

Lemma trimStart_snoc (a : jsstring) (e : Z) :
  isTrimmed e = false -> trimStart (a ++ [e]) = trimStart a ++ [e].
Proof.
  intros He. induction a as [|c a IH]; simpl; [now rewrite He|].
  destruct (isTrimmed c); [exact IH|reflexivity].
Qed.

Lemma trim_head (e : Z) (s : jsstring) :
  isTrimmed e = false -> trim (e :: s) = e :: trimEnd s.
Proof.
  intros He. unfold trim. cbn [trimStart]. rewrite He.
  unfold trimEnd. cbn [rev]. rewrite (trimStart_snoc _ e He).
  now rewrite rev_unit.
Qed.

Lemma removeHtmlComments_head (e : Z) (s : jsstring) :
  (e =? 60) = false ->
  removeHtmlComments (e :: s) = e :: removeHtmlComments s.
Proof.
  intros He. unfold removeHtmlComments. cbn [removeHtmlComments_from].
  unfold htmlCommentAt.
  change (lit "<!--") with (60 :: lit "!--").
  now rewrite (literal_other 60 e _ s He).
Qed.

Lemma removeBracketed_head (e : Z) (s : jsstring) :
  (e =? lbracket) = false ->
  removeBracketed (e :: s) = e :: removeBracketed s.
Proof.
  intros He. unfold removeBracketed. cbn [removeBracketed_from].
  now rewrite He.
Qed.

(** The stripped body of a review read back from a published comment starts
    with the first character of the severity emoji. *)
Lemma stripped_read_back (c : ReviewComment) :
  exists e tail rest,
    getSeverityEmoji (severity c) = e :: tail
    /\ stripped (trim (removeHtmlComments (publishedBody c))) = e :: rest.
Proof.
  assert (H : exists e tail,
             getSeverityEmoji (severity c) = e :: tail
             /\ (e =? 60) = false /\ (e =? lbracket) = false
             /\ isTrimmed e = false).
  { destruct (severity c); eexists; eexists; repeat split. }
  destruct H as (e & tail & He & H1 & H2 & H3).
  exists e, tail. unfold publishedBody. rewrite He.
  cbn [app]. rewrite (removeHtmlComments_head e _ H1).
  rewrite (trim_head e _ H3). unfold stripped.
  rewrite (removeBracketed_head e _ H2), (trim_head e _ H3).
  eexists. split; reflexivity.
Qed.

(** A review read back from a published comment reports a finding only if
    the stripped body of the finding starts with the first character of the
    severity emoji that [createReviewComment] put in front of the published
    body.  A finding with ordinary text is therefore never found to be
    previously reported in a history read from the platform. *)
Theorem read_back_reports_only_emoji (c n : ReviewComment)
  (listed : ListedComment) (hr : HistoricalReview) :
  listed_body listed = publishedBody c ->
  previousReview listed = Some hr ->
  reportedBy n hr = true ->
  exists e tail rest,
    getSeverityEmoji (severity c) = e :: tail
    /\ stripped (body n) = e :: rest.
Proof.
  intros Hbody Hhr Hrep. unfold previousReview in Hhr.
  destruct (matchMarker (listed_body listed)) as [[reviewId sha]|];
    [|discriminate].
  injection Hhr as <-.
  unfold reportedBy in Hrep. cbn [comment body] in Hrep.
  apply andb_true_iff in Hrep as [_ Heq]. apply str_eqb_eq in Heq.
  rewrite Hbody in Heq.
  destruct (stripped_read_back c) as (e & tail & rest & He & Hs).
  exists e, tail, rest. split; [exact He|]. now rewrite <- Heq.
Qed.

Lemma read_back_reports_only_emoji_witness :
  let hr :=
    match previousReview listedImport with
    | Some review => review
    | None => asHistory [] [] unusedImport
    end in
  previousReview listedImport = Some hr
  /\ reportedBy unusedImport hr = false
  /\ reportedBy emojiImport hr = true
  /\ exists e tail rest,
       getSeverityEmoji warning = e :: tail
       /\ stripped (body emojiImport) = e :: rest.
Proof.
  cbv zeta.
  assert (Hread : previousReview listedImport
                  = Some match previousReview listedImport with
                         | Some review => review
                         | None => asHistory [] [] unusedImport
                         end) by (vm_compute; reflexivity).
  assert (Hrep : reportedBy emojiImport
                   match previousReview listedImport with
                   | Some review => review
                   | None => asHistory [] [] unusedImport
                   end = true) by (vm_compute; reflexivity).
  split; [exact Hread|]. split; [vm_compute; reflexivity|].
  split; [exact Hrep|].
  exact (read_back_reports_only_emoji publishedImport emojiImport
           listedImport _ eq_refl Hread Hrep).
Defined.

(** ** Verdict, modes and review event on the output of a run *)

Lemma countOpen_app (sev : Severity) (a b : list ReviewComment) :
  countOpen sev (a ++ b) = countOpen sev a + countOpen sev b.
Proof.
  unfold countOpen. rewrite filter_app, length_app. lia.
Qed.

Lemma countOpen_resolved (sev : Severity) (hs : list HistoricalReview) :
  countOpen sev (map resolvedComment hs) = 0.
Proof.
  unfold countOpen. rewrite filter_none; [reflexivity|].
  intros c Hc. apply in_map_iff in Hc as (hr & <- & _).
  apply andb_false_r.
Qed.

Lemma countOpen_processed (sev : Severity) (hist : list HistoricalReview)
  (sha : jsstring) (news : list loc) (h : store) (ls : list loc) :
  countOpen sev (map (processComments hist sha news h) ls)
  = countOpen sev (map h ls).
Proof.
  unfold countOpen. f_equal.
  induction ls as [|l ls IH]; simpl; [reflexivity|].
  destruct (processComments_frame hist sha news h l)
    as (_ & _ & Hs & _).
  rewrite Hs, processComments_isResolved.
  destruct (Severity_eqb (severity (h l)) sev && negb (isResolved (h l)));
    simpl; now rewrite IH.
Qed.

(** The verdict of a run is the verdict on its current findings as they
    came in: the history, the commit and the resolved issues that the call
    adds change nothing in it. *)
Theorem verdict_ignores_history (news : list loc)
  (hist : list HistoricalReview) (sha : jsstring) (h : store)
  (maxCriticalIssues maxWarningIssues maxSuggestionIssues : number)
  (failOnQualityIssues : bool) (qualityIssuesCount : Z) :
  verdict (returned (compareWithPreviousReviews news hist sha h))
    maxCriticalIssues maxWarningIssues maxSuggestionIssues
    failOnQualityIssues qualityIssuesCount
  = verdict (map h news)
      maxCriticalIssues maxWarningIssues maxSuggestionIssues
      failOnQualityIssues qualityIssuesCount.
Proof.
  unfold verdict, returned. cbn [store_after processedComments resolvedComments
                                   compareWithPreviousReviews].
  now rewrite !countOpen_app, !countOpen_resolved, !countOpen_processed,
    !Z.add_0_r.
Qed.

Lemma resolved_not_first (hist : list HistoricalReview)
  (hr : HistoricalReview) :
  In hr hist ->
  negb (existsb
          (fun hr' => optstr_eqb (id (comment hr')) (id (resolvedComment hr)))
          hist) = false.
Proof.
  intros Hin. apply negb_false_iff. apply existsb_exists.
  exists hr. split; [exact Hin|]. now apply optstr_eqb_eq.
Qed.

(** On the output of a run whose findings do not come in as resolved: mode
    [unresolved] keeps exactly the current findings, in order; mode [new]
    keeps those of them whose identifier no historical review carries, so
    whatever mode [new] keeps, mode [unresolved] keeps too; and no resolved
    issue passes either of the two. *)
Theorem modes_on_run_output (news : list loc) (hist : list HistoricalReview)
  (sha : jsstring) (h : store) :
  (forall l, In l news -> status (h l) <> Some resolved) ->
  let r := compareWithPreviousReviews news hist sha h in
  filterComments (lit "unresolved") hist (returned r)
  = map (store_after r) news
  /\ filterComments (lit "new") hist (returned r)
     = filterComments (lit "new") hist (map (store_after r) news)
  /\ (forall c, In c (filterComments (lit "new") hist (returned r)) ->
        In c (filterComments (lit "unresolved") hist (returned r)))
  /\ filterComments (lit "all") hist (returned r)
     = map (store_after r) news ++ resolvedComments r.
Proof.
  intros Hopen. cbv zeta.
  set (r := compareWithPreviousReviews news hist sha h).
  assert (Hun : filterComments (lit "unresolved") hist (returned r)
                = map (store_after r) news).
  { unfold filterComments, returned. cbn [str_eqb lit]. simpl str_eqb.
    cbn [processedComments r compareWithPreviousReviews].
    rewrite filter_app.
    rewrite (filter_none _ (resolvedComments r)), app_nil_r.
    - apply filter_all. intros c Hc.
      apply in_map_iff in Hc as (l & <- & Hl). apply negb_true_iff.
      unfold r. cbn [store_after compareWithPreviousReviews].
      rewrite processComments_isResolved.
      apply isResolved_false. now apply Hopen.
    - intros c Hc. unfold r in Hc.
      cbn [resolvedComments compareWithPreviousReviews] in Hc.
      apply in_map_iff in Hc as (hr & <- & _). reflexivity. }
  assert (Hnew : filterComments (lit "new") hist (returned r)
                 = filterComments (lit "new") hist (map (store_after r) news)).
  { unfold filterComments, returned. simpl str_eqb.
    cbn [processedComments r compareWithPreviousReviews].
    rewrite filter_app.
    rewrite (filter_none _ (resolvedComments r)), app_nil_r; [reflexivity|].
    intros c Hc. unfold r in Hc.
    cbn [resolvedComments compareWithPreviousReviews] in Hc.
    apply in_map_iff in Hc as (hr & <- & Hhr).
    apply filter_In in Hhr as [Hhr _]. now apply resolved_not_first. }
  split; [exact Hun|]. split; [exact Hnew|]. split; [|reflexivity].
  intros c Hc. rewrite Hun. rewrite Hnew in Hc.
  unfold filterComments in Hc. simpl str_eqb in Hc.
  now apply filter_In in Hc as [Hc _].
Qed.

Lemma modes_on_run_output_witness :
  let r := compareWithPreviousReviews [0; 1]%nat importHistory sampleSha
             movedStore in
  filterComments (lit "unresolved") importHistory (returned r)
  = map (store_after r) [0; 1]%nat
  /\ filterComments (lit "new") importHistory (returned r)
     = filterComments (lit "new") importHistory
         (map (store_after r) [0; 1]%nat)
  /\ (forall c,
        In c (filterComments (lit "new") importHistory (returned r)) ->
        In c (filterComments (lit "unresolved") importHistory (returned r)))
  /\ filterComments (lit "all") importHistory (returned r)
     = map (store_after r) [0; 1]%nat ++ resolvedComments r.
Proof.
  apply (modes_on_run_output [0; 1]%nat importHistory sampleSha movedStore).
  intros l [<-|[<-|[]]]; discriminate.
Defined.

Lemma positive_count {A : Type} (p : A -> bool) (l : list A) :
  (0 <? Z.of_nat (List.length (filter p l))) = true
  <-> exists x, In x l /\ p x = true.
Proof.
  rewrite Z.ltb_lt. split.
  - intros H. destruct (filter p l) as [|x fl] eqn:E; [simpl in H; lia|].
    exists x. apply filter_In. rewrite E. now left.
  - intros (x & Hx & Hp).
    assert (Hin : In x (filter p l)) by (apply filter_In; now split).
    destruct (filter p l); [destruct Hin|simpl; lia].
Qed.

Lemma Severity_eqb_eq (a b : Severity) : Severity_eqb a b = true <-> a = b.
Proof. destruct a, b; simpl; split; congruence. Qed.

(** The event of the review is a request for changes exactly when some
    comment that is published is critical or a warning, whatever its
    status; a resolved issue counts here, while the verdict leaves it
    out. *)
Theorem reviewEvent_requests_changes (comments : list ReviewComment) :
  (reviewEvent comments = REQUEST_CHANGES
   <-> exists c, In c comments
                 /\ (severity c = critical \/ severity c = warning))
  /\ (reviewEvent comments = COMMENT
      <-> forall c, In c comments -> severity c = suggestion)
  /\ ((forall c, In c comments -> severity c <> suggestion ->
         status c = Some resolved) ->
      countOpen critical comments = 0 /\ countOpen warning comments = 0).
Proof.
  assert (Hreq : reviewEvent comments = REQUEST_CHANGES
                 <-> exists c, In c comments
                     /\ (severity c = critical \/ severity c = warning)).
  { unfold reviewEvent, countSeverity.
    destruct (_ || _) eqn:E.
    - split; [intros _|reflexivity].
      apply orb_true_iff in E as [E|E];
        apply positive_count in E as (c & Hc & Hs);
        apply Severity_eqb_eq in Hs; exists c; tauto.
    - split; [discriminate|]. intros (c & Hc & Hs). exfalso.
      apply orb_false_iff in E as [E1 E2].
      destruct Hs as [Hs|Hs].
      + assert (H : (0 <? Z.of_nat
                       (List.length
                          (filter (fun c => Severity_eqb (severity c) critical)
                             comments))) = true).
        { apply positive_count. exists c. split; [exact Hc|].
          now apply Severity_eqb_eq. }
        congruence.
      + assert (H : (0 <? Z.of_nat
                       (List.length
                          (filter (fun c => Severity_eqb (severity c) warning)
                             comments))) = true).
        { apply positive_count. exists c. split; [exact Hc|].
          now apply Severity_eqb_eq. }
        congruence. }
  split; [exact Hreq|]. split.
  - split.
    + intros Hev c Hc. destruct (severity c) eqn:Es; [| |reflexivity];
        exfalso;
        assert (H : reviewEvent comments = REQUEST_CHANGES)
          by (apply Hreq; exists c; rewrite Es; tauto);
        congruence.
    + intros Hall. destruct (reviewEvent comments) eqn:Ev; [|reflexivity].
      destruct (proj1 Hreq eq_refl) as (c & Hc & Hs).
      rewrite (Hall c Hc) in Hs.
      destruct Hs; discriminate.
  - intros Hres. unfold countOpen.
    split; rewrite filter_none; try reflexivity; intros c Hc;
      destruct (severity c) eqn:Es; simpl; trivial;
      assert (Hs : status c = Some resolved)
        by (apply Hres; [exact Hc|rewrite Es; discriminate]);
      unfold isResolved; now rewrite Hs.
Qed.

Lemma reviewEvent_requests_changes_witness :
  reviewEvent sampleComments = REQUEST_CHANGES
  /\ reviewEvent [issueOf critical (Some resolved)] = REQUEST_CHANGES
  /\ countOpen critical [issueOf critical (Some resolved)] = 0.
Proof.
  destruct (reviewEvent_requests_changes sampleComments) as (Hreq & _ & _).
  destruct (reviewEvent_requests_changes [issueOf critical (Some resolved)])
    as (Hreq' & _ & Hopen).
  split; [|split].
  - apply Hreq. exists (issueOf critical None).
    split; [right; left; reflexivity|left; reflexivity].
  - apply Hreq'. exists (issueOf critical (Some resolved)).
    split; [left; reflexivity|left; reflexivity].
  - apply Hopen. intros c [<-|[]] _. reflexivity.
Defined.

(** ** A second run over what the first run published *)

Lemma getPreviousReviews_cons (listed : ListedComment)
  (rest : list ListedComment) :
  getPreviousReviews (Some (listed :: rest))
  = getPreviousReviews (Some [listed]) ++ getPreviousReviews (Some rest).
Proof.
  unfold getPreviousReviews. cbn [flat_map]. now rewrite app_nil_r.
Qed.

(** The reviews read back from the published current issues of a run carry
    the identifiers of these issues, one review per issue. *)
Lemma read_back_all (news : list loc) (hist : list HistoricalReview)
  (sha : jsstring) (h : store) :
  NoDup news -> forallb shaChar sha = true ->
  let r := compareWithPreviousReviews news hist sha h in
  forall (ls : list loc) (listed : list ListedComment),
    incl ls news ->
    Forall2 (fun g l => listed_body l = gh_body g)
      (reviewComments (map (store_after r) ls)) listed ->
    map (fun hr => id (comment hr)) (getPreviousReviews (Some listed))
    = map (fun l => id (store_after r l)) ls.
Proof.
  intros Hnd Hsha. cbv zeta. induction ls as [|l ls IH]; intros listed Hincl H.
  - inversion H. reflexivity.
  - cbn [map reviewComments] in H. inversion H as [|g x gs xs Hx Hxs]; subst.
    cbn [gh_body] in Hx.
    destruct (reads_back news hist sha h l x Hnd
                (Hincl l (or_introl eq_refl)) Hsha Hx)
      as (hr & Hread & _ & Hid & _).
    rewrite getPreviousReviews_cons, Hread. cbn [map app]. rewrite Hid.
    f_equal. apply IH; [|exact Hxs].
    intros l' Hl'. apply Hincl. now right.
Qed.

(** A first run, with no history, publishes its issues; the platform lists
    them, and a second run on the same findings reads them back.  If the
    commit reference of the first run has no hyphen and no line terminator
    in it, the second run reads one review per issue, gives every issue the
    identifier of the first run and returns no resolved issue. *)
Theorem second_run_over_published (news : list loc) (sha1 sha2 : jsstring)
  (h : store) (listed : list ListedComment) :
  NoDup news -> forallb shaChar sha1 = true ->
  let r1 := compareWithPreviousReviews news [] sha1 h in
  Forall2 (fun g l => listed_body l = gh_body g)
    (reviewComments (returned r1)) listed ->
  let hist := getPreviousReviews (Some listed) in
  let r2 := compareWithPreviousReviews news hist sha2 h in
  List.length hist = List.length news
  /\ (forall l, In l news -> id (store_after r2 l) = id (store_after r1 l))
  /\ resolvedComments r2 = []
  /\ returned r2 = map (store_after r2) news.
Proof.
  intros Hnd Hsha. cbv zeta. intros Hlisted.
  set (r1 := compareWithPreviousReviews news [] sha1 h) in *.
  set (hist := getPreviousReviews (Some listed)).
  set (r2 := compareWithPreviousReviews news hist sha2 h).
  assert (Hret : returned r1 = map (store_after r1) news).
  { unfold returned, r1. cbn [resolvedComments processedComments
                                compareWithPreviousReviews filter map].
    apply app_nil_r. }
  rewrite Hret in Hlisted.
  pose proof (read_back_all news [] sha1 h Hnd Hsha news listed
                (incl_refl news) Hlisted) as Hids.
  fold r1 hist in Hids.
  assert (Hsame : forall l, In l news ->
                    id (store_after r2 l) = id (store_after r1 l)).
  { intros l Hl. unfold r1, r2. cbn [store_after compareWithPreviousReviews].
    rewrite !processComments_once by assumption. now rewrite !annotate_id. }
  assert (Hres : resolvedComments r2 = []).
  { unfold r2. cbn [resolvedComments compareWithPreviousReviews].
    rewrite filter_none; [reflexivity|].
    intros hr Hhr.
    destruct (notReported _ news hr) eqn:E; [|reflexivity].
    apply notReported_spec in E. exfalso. apply E.
    assert (Hin : In (id (comment hr))
                    (map (fun hr => id (comment hr)) hist)).
    { apply in_map_iff. now exists hr. }
    rewrite Hids in Hin. apply in_map_iff in Hin as (l & Hl & Hlin).
    apply in_map_iff. exists l. split; [|exact Hlin].
    rewrite <- Hl. exact (Hsame l Hlin). }
  split.
  - rewrite <- (length_map (fun hr => id (comment hr)) hist), Hids.
    apply length_map.
  - split; [exact Hsame|]. split; [exact Hres|].
    unfold returned. rewrite Hres. apply app_nil_r.
Qed.

Lemma second_run_over_published_witness :
  let r1 := compareWithPreviousReviews [0; 1]%nat [] sampleSha movedStore in
  let listed :=
    map (fun g => mkListedComment (gh_body g) (gh_path g) None (lit "t"))
      (reviewComments (returned r1)) in
  let hist := getPreviousReviews (Some listed) in
  let r2 := compareWithPreviousReviews [0; 1]%nat hist (lit "badc0de")
              movedStore in
  List.length hist = 2%nat
  /\ (forall l, In l [0; 1]%nat ->
        id (store_after r2 l) = id (store_after r1 l))
  /\ resolvedComments r2 = []
  /\ returned r2 = map (store_after r2) [0; 1]%nat.
Proof.
  apply (second_run_over_published [0; 1]%nat sampleSha (lit "badc0de")
           movedStore).
  - distinct.
  - reflexivity.
  - repeat constructor.
Defined.

(** ** The grouping of [createReviewComment] *)

Lemma Severity_eqb_sym (a b : Severity) : Severity_eqb a b = Severity_eqb b a.
Proof. now destruct a, b. Qed.

Lemma str_eqb_sym (a b : jsstring) : str_eqb a b = str_eqb b a.
Proof.
  destruct (str_eqb a b) eqn:E.
  - apply str_eqb_eq in E. subst. symmetry. apply str_eqb_refl.
  - destruct (str_eqb b a) eqn:E'; [|reflexivity].
    apply str_eqb_eq in E'. subst. now rewrite str_eqb_refl in E.
Qed.

Lemma str_eqb_false_neq (a b : jsstring) : str_eqb a b = false -> a <> b.
Proof. intros H E. subst. now rewrite str_eqb_refl in H. Qed.

Lemma neq_str_eqb_false (a b : jsstring) : a <> b -> str_eqb a b = false.
Proof.
  intros H. destruct (str_eqb a b) eqn:E; [|reflexivity].
  apply str_eqb_eq in E. contradiction.
Qed.

Lemma addComment_keys (c : ReviewComment) (m : list (jsstring * FileComments))
  (p : jsstring) :
  In p (map fst (addComment c m)) <-> In p (map fst m) \/ p = path c.
Proof.
  induction m as [|[q fc] m IH]; simpl.
  - intuition.
  - destruct (str_eqb q (path c)) eqn:E; simpl.
    + apply str_eqb_eq in E. subst q. intuition.
    + rewrite IH. intuition.
Qed.

Lemma addComment_NoDup (c : ReviewComment)
  (m : list (jsstring * FileComments)) :
  NoDup (map fst m) -> NoDup (map fst (addComment c m)).
Proof.
  induction m as [|[q fc] m IH]; simpl; intros H.
  - constructor; [intros []|constructor].
  - inversion H as [|? ? Hq Hm]; subst.
    destruct (str_eqb q (path c)) eqn:E; simpl.
    + now constructor.
    + constructor; [|now apply IH].
      intros Hin. apply addComment_keys in Hin as [Hin| ->]; [contradiction|].
      now rewrite str_eqb_refl in E.
Qed.

Lemma addComment_entry (c : ReviewComment)
  (m : list (jsstring * FileComments)) (p : jsstring) (fc' : FileComments) :
  NoDup (map fst m) -> In (p, fc') (addComment c m) ->
  (p = path c
   /\ ((exists fc, In (p, fc) m /\ fc' = pushComment c fc)
       \/ (~ In p (map fst m) /\ fc' = pushComment c noComments)))
  \/ (p <> path c /\ In (p, fc') m).
Proof.
  induction m as [|[q fc] m IH]; simpl; intros Hnd Hin.
  - destruct Hin as [[= <- <-]|[]]. left. split; [reflexivity|].
    right. split; [intros []|reflexivity].
  - inversion Hnd as [|? ? Hq Hm]; subst.
    destruct (str_eqb q (path c)) eqn:E.
    + apply str_eqb_eq in E. subst q. destruct Hin as [[= <- <-]|Hin].
      * left. split; [reflexivity|]. left. exists fc. split; [now left|reflexivity].
      * right. split; [|now right].
        intros ->. apply Hq. apply in_map_iff. now exists (path c, fc').
    + apply str_eqb_false_neq in E.
      destruct Hin as [[= <- <-]|Hin].
      * right. split; [exact E|now left].
      * destruct (IH Hm Hin) as [(-> & [(fc0 & Hfc0 & ->)|(Hout & ->)])|(Hne & Hin')].
        -- left. split; [reflexivity|]. left. exists fc0. split; [now right|reflexivity].
        -- left. split; [reflexivity|]. right. split; [|reflexivity].
           intros [Heq|Hin']; [now apply E|contradiction].
        -- right. split; [exact Hne|now right].
Qed.

(** The invariant of the loop that fills [commentsByFile]. *)
Lemma commentsByFile_invariant (comments : list ReviewComment) :
  forall (m : list (jsstring * FileComments)) (seen : list ReviewComment),
    NoDup (map fst m) ->
    (forall p, In p (map fst m) <-> exists c, In c seen /\ path c = p) ->
    (forall p fc sev, In (p, fc) m -> fc sev = commentsOf p sev seen) ->
    let m' := fold_left (fun m c => addComment c m) comments m in
    NoDup (map fst m')
    /\ (forall p, In p (map fst m')
                  <-> exists c, In c (seen ++ comments) /\ path c = p)
    /\ (forall p fc sev, In (p, fc) m' ->
          fc sev = commentsOf p sev (seen ++ comments)).
Proof.
  induction comments as [|c comments IH]; intros m seen Hnd Hkeys Hfc; simpl.
  - rewrite app_nil_r. now split.
  - replace (seen ++ c :: comments) with ((seen ++ [c]) ++ comments)
      by (rewrite <- app_assoc; reflexivity).
    apply IH.
    + now apply addComment_NoDup.
    + intros p. rewrite addComment_keys, Hkeys. split.
      * intros [(c' & Hc' & Hp)| ->].
        -- exists c'. split; [apply in_or_app; now left|exact Hp].
        -- exists c. split; [apply in_or_app; right; now left|reflexivity].
      * intros (c' & Hc' & Hp). apply in_app_or in Hc' as [Hc'|[<-|[]]].
        -- left. now exists c'.
        -- right. now symmetry.
    + intros p fc' sev Hin. unfold commentsOf. rewrite filter_app. simpl.
      destruct (addComment_entry c m p fc' Hnd Hin)
        as [(-> & [(fc0 & Hfc0 & ->)|(Hout & ->)])|(Hne & Hin')].
      * rewrite str_eqb_refl. simpl. unfold pushComment.
        rewrite (Severity_eqb_sym (severity c) sev).
        rewrite (Hfc _ _ sev Hfc0). unfold commentsOf.
        destruct (Severity_eqb sev (severity c)); [reflexivity|].
        now rewrite app_nil_r.
      * rewrite str_eqb_refl. simpl. unfold pushComment, noComments.
        rewrite (Severity_eqb_sym (severity c) sev).
        rewrite filter_none.
        -- now destruct (Severity_eqb sev (severity c)).
        -- intros c' Hc'. destruct (str_eqb (path c') (path c)) eqn:E;
             [|reflexivity].
           apply str_eqb_eq in E. exfalso. apply Hout. apply Hkeys.
           now exists c'.
      * rewrite (Hfc _ _ sev Hin'). unfold commentsOf.
        assert (E : str_eqb (path c) p = false).
        { apply neq_str_eqb_false. congruence. }
        rewrite E. simpl. now rewrite app_nil_r.
Qed.

(** The grouping of [createReviewComment] loses and repeats nothing: the
    map has one entry per path that some comment has, and the entry of a
    path holds, for each severity, the comments of that path and severity in
    the order they were given. *)
Theorem commentsByFile_groups (comments : list ReviewComment) :
  NoDup (map fst (commentsByFile comments))
  /\ (forall p, In p (map fst (commentsByFile comments))
                <-> exists c, In c comments /\ path c = p)
  /\ (forall p fc sev, In (p, fc) (commentsByFile comments) ->
        fc sev = commentsOf p sev comments).
Proof.
  apply (commentsByFile_invariant comments [] []).
  - constructor.
  - intros p. split; [intros []|intros (c & [] & _)].
  - intros p fc sev [].
Qed.

Lemma commentsByFile_groups_witness :
  let r := compareWithPreviousReviews [0; 1]%nat importHistory sampleSha
             movedStore in
  map fst (commentsByFile (returned r)) = [lit "a.py"]
  /\ forall fc sev,
       In (lit "a.py", fc) (commentsByFile (returned r)) ->
       fc sev = commentsOf (lit "a.py") sev (returned r).
Proof.
  split; [vm_compute; reflexivity|].
  intros fc sev.
  destruct (commentsByFile_groups
              (returned (compareWithPreviousReviews [0; 1]%nat importHistory
                           sampleSha movedStore))) as (_ & _ & H).
  apply H.
Defined.

(** ** The older status and the thresholds *)

Lemma countOpen_unresolved (sev : Severity) (comments : list ReviewComment) :
  (forall c, In c comments -> status c <> Some resolved) ->
  countOpen sev comments = countSeverity sev comments.
Proof.
  intros H. unfold countOpen, countSeverity. do 2 f_equal.
  induction comments as [|c cs IH]; simpl; [reflexivity|].
  assert (Hc : isResolved c = false).
  { apply isResolved_false. apply H. now left. }
  rewrite Hc, andb_true_r.
  rewrite IH; [reflexivity|]. intros c' Hc'. apply H. now right.
Qed.

Lemma countSeverity_positive (sev : Severity) (comments : list ReviewComment) :
  (0 <? countSeverity sev comments) = true
  <-> exists c, In c comments /\ severity c = sev.
Proof.
  unfold countSeverity. rewrite positive_count.
  split; intros (c & Hc & Hs); exists c; split; trivial;
    now apply Severity_eqb_eq.
Qed.

Lemma exceeds_zero (count : Z) : exceeds count (Int 0) = (0 <? count).
Proof. reflexivity. Qed.

(** On comments without a resolved status, as the older version has them:
    the older status fails exactly when the review event is a request for
    changes, that is when some comment is critical or a warning; the
    verdict with both caps at 0 fails in the same cases; the verdict with
    the default thresholds, 0 for critical issues and -1 for the others,
    fails only when some comment is critical. *)
Theorem older_status_and_thresholds (comments : list ReviewComment)
  (qualityIssuesCount : Z) :
  (forall c, In c comments -> status c <> Some resolved) ->
  (shouldFail (olderStatus comments) = true
   <-> reviewEvent comments = REQUEST_CHANGES)
  /\ shouldFail (verdict comments (Int 0) (Int 0) (Int (-1)) false
                   qualityIssuesCount)
     = shouldFail (olderStatus comments)
  /\ (shouldFail (verdict comments (Int 0) (Int (-1)) (Int (-1)) false
                    qualityIssuesCount) = true
      <-> exists c, In c comments /\ severity c = critical).
Proof.
  intros Hopen.
  assert (Hold : shouldFail (olderStatus comments)
                 = (0 <? countSeverity critical comments)
                   || (0 <? countSeverity warning comments)).
  { unfold olderStatus.
    destruct (0 <? countSeverity critical comments); [reflexivity|].
    destruct (0 <? countSeverity warning comments); reflexivity. }
  split; [|split].
  - rewrite Hold. unfold reviewEvent.
    destruct (_ || _); split; congruence.
  - rewrite Hold. unfold verdict, failureDecision.
    rewrite !(countOpen_unresolved _ _ Hopen), !exceeds_zero.
    destruct (0 <? countSeverity critical comments); [reflexivity|].
    destruct (0 <? countSeverity warning comments); reflexivity.
  - rewrite <- countSeverity_positive.
    unfold verdict, failureDecision.
    rewrite !(countOpen_unresolved _ _ Hopen), exceeds_zero.
    rewrite !exceeds_unbounded.
    destruct (0 <? countSeverity critical comments); simpl; split; congruence.
Qed.

Lemma older_status_and_thresholds_witness :
  shouldFail (olderStatus (repeat (issueOf warning None) 20)) = true
  /\ reviewEvent (repeat (issueOf warning None) 20) = REQUEST_CHANGES
  /\ shouldFail (verdict (repeat (issueOf warning None) 20)
                   (Int 0) (Int 0) (Int (-1)) false 0) = true
  /\ shouldFail (verdict (repeat (issueOf warning None) 20)
                   (Int 0) (Int (-1)) (Int (-1)) false 0) = false.
Proof.
  destruct (older_status_and_thresholds (repeat (issueOf warning None) 20) 0)
    as (Hold & Hcaps & Hdefault).
  { intros c Hc. apply repeat_spec in Hc. subst c. discriminate. }
  assert (Hfail : shouldFail (olderStatus (repeat (issueOf warning None) 20))
                  = true) by reflexivity.
  split; [exact Hfail|]. split; [now apply Hold|].
  split; [now rewrite Hcaps|].
  destruct (shouldFail (verdict (repeat (issueOf warning None) 20)
                          (Int 0) (Int (-1)) (Int (-1)) false 0)) eqn:E;
    [|reflexivity].
  destruct (proj1 Hdefault eq_refl) as (c & Hc & Hs).
  apply repeat_spec in Hc. subst c. discriminate.
Defined.

(** ** Runs without findings and runs without history *)

(** A run without findings returns every historical review as a resolved
    issue, in order, and touches no object; a run without history returns no
    resolved issue and finds no finding to be reported before, so that the
    body of a finding listed once is the marker followed by the body it
    had. *)
Theorem runs_without_findings_or_history (news : list loc)
  (hist : list HistoricalReview) (sha : jsstring) (h : store) :
  (returned (compareWithPreviousReviews [] hist sha h)
   = map resolvedComment hist
   /\ forall l, store_after (compareWithPreviousReviews [] hist sha h) l = h l)
  /\ (resolvedComments (compareWithPreviousReviews news [] sha h) = []
      /\ (forall c, reportedBefore [] c = false)
      /\ (NoDup news -> forall l, In l news ->
            body (store_after (compareWithPreviousReviews news [] sha h) l)
            = trackingMarker (commentIdOf (h l)) sha ++ body (h l))).
Proof.
  split; [split|split; [|split]].
  - unfold returned. cbn [store_after processedComments resolvedComments
                            compareWithPreviousReviews map app processComments].
    f_equal. apply filter_all. intros hr _. reflexivity.
  - reflexivity.
  - reflexivity.
  - reflexivity.
  - intros Hnd l Hl. cbn [store_after compareWithPreviousReviews].
    rewrite processComments_once by assumption.
    rewrite annotate_body. cbn [reportedBefore existsb].
    now rewrite app_nil_r.
Qed.

Lemma runs_without_findings_or_history_witness :
  returned (compareWithPreviousReviews [] importHistory sampleSha sampleStore)
  = map resolvedComment importHistory
  /\ body (store_after
             (compareWithPreviousReviews [0]%nat [] sampleSha sampleStore)
             0%nat)
     = trackingMarker (commentIdOf unusedImport) sampleSha
       ++ lit "unused import".
Proof.
  destruct (runs_without_findings_or_history [0]%nat importHistory sampleSha
              sampleStore) as ((Hall & _) & (_ & _ & Hbody)).
  split; [exact Hall|].
  apply Hbody; [distinct|now left].
Defined.

(** ** Quality metrics *)

Lemma existsb_str_eqb (p : jsstring) (l : list jsstring) :
  existsb (str_eqb p) l = true <-> In p l.
Proof.
  rewrite existsb_exists. split.
  - intros (x & Hx & E). apply str_eqb_eq in E. now subst.
  - intros H. exists p. split; [exact H|apply str_eqb_refl].
Qed.

Lemma setOf_spec (paths : list jsstring) :
  forall seen, NoDup seen ->
    NoDup (setOf seen paths)
    /\ (forall p, In p (setOf seen paths) <-> In p seen \/ In p paths)
    /\ (List.length (setOf seen paths)
        <= List.length seen + List.length paths)%nat
    /\ (List.length seen <= List.length (setOf seen paths))%nat.
Proof.
  induction paths as [|q paths IH]; intros seen Hnd; simpl.
  - split; [exact Hnd|]. split; [intuition|lia].
  - destruct (existsb (str_eqb q) seen) eqn:E.
    + apply existsb_str_eqb in E.
      destruct (IH seen Hnd) as (H1 & H2 & H3 & H4).
      split; [exact H1|]. split; [|lia].
      intros p. rewrite H2. intuition. subst. now left.
    + assert (Hq : ~ In q seen).
      { intros H. apply existsb_str_eqb in H. congruence. }
      assert (Hnd' : NoDup (seen ++ [q])).
      { apply NoDup_app; [exact Hnd|constructor; [intros []|constructor]|].
        intros x Hx [<-|[]]. contradiction. }
      destruct (IH (seen ++ [q]) Hnd') as (H1 & H2 & H3 & H4).
      rewrite length_app in H3, H4. simpl in H3, H4.
      split; [exact H1|]. split; [|lia].
      intros p. rewrite H2, in_app_iff. simpl. intuition.
Qed.

Lemma disjoint_filters {A : Type} (p q : A -> bool) (l : list A) :
  (forall x, p x = true -> q x = false) ->
  (List.length (filter p l) + List.length (filter q l) <= List.length l)%nat.
Proof.
  intros H. induction l as [|x l IH]; simpl; [lia|].
  destruct (p x) eqn:Ep.
  - rewrite (H x Ep). simpl. lia.
  - destruct (q x); simpl; lia.
Qed.

(** The counts a tool runner reports describe its issues: critical issues
    and warnings together are no more than all issues; the number of files
    is the number of different paths among the issues, at most the number
    of issues, and zero only when there is no issue. *)
Theorem computeMetrics_counts (found : list QualityIssue) :
  let m := computeMetrics found in
  totalIssues m = List.length found
  /\ (criticalIssues m + warningIssues m <= totalIssues m)%nat
  /\ (filesWithIssues m <= totalIssues m)%nat
  /\ (filesWithIssues m = 0%nat <-> found = [])
  /\ exists files,
       NoDup files
       /\ (forall p, In p files <-> exists i, In i found /\ q_path i = p)
       /\ filesWithIssues m = List.length files.
Proof.
  cbv zeta. unfold computeMetrics.
  cbn [totalIssues criticalIssues warningIssues filesWithIssues].
  destruct (setOf_spec (map q_path found) [] (NoDup_nil _))
    as (Hnd & Hin & Hle & _).
  rewrite length_map in Hle. simpl in Hle.
  split; [reflexivity|]. split; [|split; [exact Hle|split]].
  - apply disjoint_filters. intros i Hi.
    apply Severity_eqb_eq in Hi. now rewrite Hi.
  - split.
    + intros H0. destruct found as [|i found]; [reflexivity|]. exfalso.
      assert (Hp : In (q_path i) (setOf [] (map q_path (i :: found)))).
      { apply Hin. right. now left. }
      destruct (setOf [] (map q_path (i :: found)));
        [destruct Hp|discriminate].
    + intros ->. reflexivity.
  - exists (setOf [] (map q_path found)).
    split; [exact Hnd|]. split; [|reflexivity].
    intros p. rewrite Hin, in_map_iff. split.
    + intros [[]|(i & Hi & Hfound)]. now exists i.
    + intros (i & Hfound & Hi). right. now exists i.
Qed.

Lemma filter_filter {A : Type} (p : A -> bool) (l : list A) :
  filter p (filter p l) = filter p l.
Proof.
  apply filter_all. intros x Hx. now apply filter_In in Hx.
Qed.

(** The step that drops ignored rules: an issue is kept exactly when its
    rule is not ignored, in the order of the tool; when the tool reported
    counts, the counts are those of the issues kept; a tool that reported
    no counts still has none; and applying the step again changes
    nothing. *)
Theorem ignored_rules_removed (rulesToIgnore : list jsstring)
  (result : ToolResult) :
  metrics result = None
  \/ metrics result = Some (computeMetrics (issues result)) ->
  let out := withoutIgnoredRules rulesToIgnore result in
  issues out
  = filter (fun i => negb (existsb (str_eqb (q_rule i)) rulesToIgnore))
      (issues result)
  /\ (forall i, In i (issues out)
                <-> In i (issues result) /\ ~ In (q_rule i) rulesToIgnore)
  /\ (metrics out = None
      \/ metrics out = Some (computeMetrics (issues out)))
  /\ (metrics out = None <-> metrics result = None)
  /\ withoutIgnoredRules rulesToIgnore out = out.
Proof.
  intros Hm. cbv zeta.
  assert (Hkeep : forall i,
             negb (existsb (str_eqb (q_rule i)) rulesToIgnore) = true
             <-> ~ In (q_rule i) rulesToIgnore).
  { intros i. rewrite negb_true_iff. rewrite <- existsb_str_eqb.
    destruct (existsb _ rulesToIgnore); split; congruence. }
  assert (Hissues : issues (withoutIgnoredRules rulesToIgnore result)
                    = filter
                        (fun i =>
                           negb (existsb (str_eqb (q_rule i)) rulesToIgnore))
                        (issues result)).
  { unfold withoutIgnoredRules. destruct rulesToIgnore; [|reflexivity].
    symmetry. apply filter_all. reflexivity. }
  split; [exact Hissues|]. split; [|split; [|split]].
  - intros i. rewrite Hissues, filter_In, Hkeep. reflexivity.
  - unfold withoutIgnoredRules. destruct rulesToIgnore; [exact Hm|].
    cbn [metrics issues]. destruct (metrics result); [now right|now left].
  - unfold withoutIgnoredRules. destruct rulesToIgnore; [reflexivity|].
    cbn [metrics]. destruct (metrics result); split; congruence.
  - unfold withoutIgnoredRules. destruct rulesToIgnore as [|rule rules];
      [reflexivity|].
    cbn [issues metrics]. rewrite filter_filter.
    destruct (metrics result); reflexivity.
Qed.

Lemma ignored_rules_removed_witness :
  let found :=
    [mkQualityIssue (lit "a.js") (Int 3) (lit "Unexpected console statement.")
       (lit "no-console") warning;
     mkQualityIssue (lit "a.js") (Int 9) (lit "'x' is not defined.")
       (lit "no-undef") critical] in
  let out := withoutIgnoredRules [lit "no-console"] (ranWith found) in
  issues out = [nth 1 found (nth 0 found (mkQualityIssue [] NaN [] [] warning))]
  /\ metrics out = Some (mkMetrics 1 1 0 1).
Proof.
  cbv zeta.
  destruct (ignored_rules_removed [lit "no-console"]
              (ranWith
                 [mkQualityIssue (lit "a.js") (Int 3)
                    (lit "Unexpected console statement.")
                    (lit "no-console") warning;
                  mkQualityIssue (lit "a.js") (Int 9)
                    (lit "'x' is not defined.") (lit "no-undef") critical])
              (or_intror eq_refl)) as (Hissues & _ & Hm & Hnone & _).
  split; [rewrite Hissues; reflexivity|].
  destruct Hm as [Hm|Hm].
  - apply Hnone in Hm. discriminate.
  - rewrite Hm, Hissues. reflexivity.
Defined.

(** ** Resolved issues are not history *)

Lemma includes_skip (pre s t : jsstring) (first : Z) (t' : jsstring) :
  t = first :: t' ->
  forallb (fun c => negb (c =? first)) pre = true ->
  includes (pre ++ s) t = includes s t.
Proof.
  intros -> H. induction pre as [|c pre IH]; [reflexivity|].
  simpl in H. apply andb_true_iff in H as [Hc Hpre].
  apply negb_true_iff in Hc.
  cbn [app includes startsWith]. rewrite Hc. cbn [andb orb].
  now apply IH.
Qed.

Lemma matchMarker_needs_opening (s : jsstring) :
  includes s (lit "<!--review-id:") = false -> matchMarker s = None.
Proof.
  intros H. destruct (matchMarker s) as [[reviewId sha]|] eqn:E;
    [|reflexivity].
  apply matchMarker_split in E as (pre & rest & -> & _).
  unfold markerText in H. rewrite <- !app_assoc in H.
  rewrite includes_inside in H. discriminate.
Qed.

(** A resolved issue that is published is not read back as a review when
    the historical body it repeats has no marker opening in it: the
    published text of a resolved issue carries no marker of its own. *)
Theorem resolved_issue_not_read_back (hr : HistoricalReview)
  (listed : ListedComment) :
  includes (body (comment hr)) (lit "<!--review-id:") = false ->
  listed_body listed = publishedBody (resolvedComment hr) ->
  getPreviousReviews (Some [listed]) = [].
Proof.
  intros Hbody Hlisted.
  unfold getPreviousReviews, previousReview. cbn [flat_map].
  rewrite Hlisted, matchMarker_needs_opening; [reflexivity|].
  assert (Hshape : publishedBody (resolvedComment hr)
                   = (getSeverityEmoji (severity (comment hr)) ++ lit " ["
                      ++ toUpperCase (severityName (severity (comment hr)))
                      ++ lit "] " ++ resolvedPrefix)
                     ++ body (comment hr)).
  { unfold publishedBody. cbn [body severity resolvedComment].
    rewrite <- !app_assoc. reflexivity. }
  rewrite Hshape.
  rewrite (includes_skip _ _ _ 60 (lit "!--review-id:") eq_refl);
    [exact Hbody|].
  destruct (severity (comment hr)); reflexivity.
Qed.

Lemma resolved_issue_not_read_back_witness :
  getPreviousReviews
    (Some [mkListedComment
             (publishedBody
                (resolvedComment
                   (nth 0 importHistory (asHistory [] [] unusedImport))))
             (lit "a.py") (Some 10) (lit "2024-01-03T00:00:00Z")])
  = [].
Proof.
  apply (resolved_issue_not_read_back
           (nth 0 importHistory (asHistory [] [] unusedImport))).
  - reflexivity.
  - reflexivity.
Defined.
